(** * GridVision meter-reading pipeline: [aiservice/utils/ocr.py]

    A shallow embedding of the recognition pipeline of the AI service
    (validator, text normaliser, contour fallback, orchestrator) and the
    properties the design document states about it.

    Python strings are sequences of Unicode code points; they are modelled as
    lists of code points ([N]).  The external libraries (PIL, OpenCV,
    pytesseract) are not part of the repository: they are an environment
    record of partial operations, each of which either returns a value or
    raises a Python [Exception]. *)

From Stdlib Require Import List NArith ZArith QArith Bool Lia Arith.
From Stdlib Require Import String Ascii DecimalString.
Import ListNotations.
Close Scope Q_scope.
Open Scope list_scope.

(** ** Python strings *)

Module PyStr.

Definition pystr := list N.

(** A literal of the source (ASCII only). *)
Definition lit (s : string) : pystr := map N_of_ascii (list_ascii_of_string s).

Definition chr (a : ascii) : N := N_of_ascii a.

(** Line feed, which a string literal of this file cannot hold. *)
Definition LF : N := 10%N.

Definition in_ranges (table : list (N * N)) (c : N) : bool :=
  existsb (fun r => (fst r <=? c)%N && (c <=? snd r)%N) table.

(** Code points matched by [\d] in a [str] pattern of [re]: the decimal
    digits (category Nd) of Unicode 14.0, the database of CPython 3.11. *)
Definition decimal_table : list (N * N) :=
  [(48, 57); (1632, 1641); (1776, 1785); (1984, 1993); (2406, 2415);
   (2534, 2543); (2662, 2671); (2790, 2799); (2918, 2927); (3046, 3055);
   (3174, 3183); (3302, 3311); (3430, 3439); (3558, 3567); (3664, 3673);
   (3792, 3801); (3872, 3881); (4160, 4169); (4240, 4249); (6112, 6121);
   (6160, 6169); (6470, 6479); (6608, 6617); (6784, 6793); (6800, 6809);
   (6992, 7001); (7088, 7097); (7232, 7241); (7248, 7257); (42528, 42537);
   (43216, 43225); (43264, 43273); (43472, 43481); (43504, 43513);
   (43600, 43609); (44016, 44025); (65296, 65305); (66720, 66729);
   (68912, 68921); (69734, 69743); (69872, 69881); (69942, 69951);
   (70096, 70105); (70384, 70393); (70736, 70745); (70864, 70873);
   (71248, 71257); (71360, 71369); (71472, 71481); (71904, 71913);
   (72016, 72025); (72784, 72793); (73040, 73049); (73120, 73129);
   (92768, 92777); (92864, 92873); (93008, 93017); (120782, 120831);
   (123200, 123209); (123632, 123641); (125264, 125273);
   (130032, 130041)]%N.

(** Code points that [str.isdigit] counts as digits without their being
    decimal digits (superscripts, circled digits and the like). *)
Definition other_digit_table : list (N * N) :=
  [(178, 179); (185, 185); (4969, 4977); (6618, 6618); (8304, 8304);
   (8308, 8313); (8320, 8329); (9312, 9320); (9332, 9340); (9352, 9360);
   (9450, 9450); (9461, 9469); (9471, 9471); (10102, 10110);
   (10112, 10120); (10122, 10130); (68160, 68163); (69216, 69224);
   (69714, 69722); (127232, 127242)]%N.

(** Code points matched by [\s] in a [str] pattern (those of
    [str.isspace]). *)
Definition space_table : list (N * N) :=
  [(9, 13); (28, 32); (133, 133); (160, 160); (5760, 5760); (8192, 8202);
   (8232, 8233); (8239, 8239); (8287, 8287); (12288, 12288)]%N.

Definition re_d (c : N) : bool := in_ranges decimal_table c.
Definition re_s (c : N) : bool := in_ranges space_table c.
Definition is_digit_char (c : N) : bool :=
  re_d c || in_ranges other_digit_table c.

(** The ten characters [0] .. [9]. *)
Definition ascii_digit (c : N) : bool := (48 <=? c)%N && (c <=? 57)%N.

(** [not s] for a string. *)
Definition py_not (s : pystr) : bool :=
  match s with [] => true | _ :: _ => false end.

(** [s.isdigit()]: every character is a digit and there is at least one. *)
Definition isdigit (s : pystr) : bool := negb (py_not s) && forallb is_digit_char s.

Definition len (s : pystr) : nat := List.length s.

(** [set(s)], as the list of the distinct characters of [s]. *)
Definition set (s : pystr) : list N := nodup N.eq_dec s.

(** Membership in a literal character list. *)
Definition in_chars (cs : pystr) (c : N) : bool := existsb (N.eqb c) cs.

(** [re.sub(cls, "", text)] for a pattern [cls] that is one character class:
    every character of the class is deleted. *)
Definition re_sub_class (cls : N -> bool) (text : pystr) : pystr :=
  filter (fun c => negb (cls c)) text.

(** [text.replace(old, new)] for a one-character [old]. *)
Definition replace (old : N) (new : pystr) (text : pystr) : pystr :=
  flat_map (fun c => if (c =? old)%N then new else [c]) text.

Fixpoint dropwhile (p : N -> bool) (s : pystr) : pystr :=
  match s with
  | [] => []
  | c :: s' => if p c then dropwhile p s' else s
  end.

(** [re.sub("^cls*", "", text)]: without the MULTILINE flag [^] matches at
    the start of the string only, and the greedy star takes the longest run
    of characters of the class there. *)
Definition re_sub_leading (cls : N -> bool) (text : pystr) : pystr :=
  dropwhile cls text.

(** [re.sub("cls*$", "", text)]: the leftmost match is the longest run of
    characters of the class that reaches the end of the string (a run that
    stops before a character outside the class cannot reach [$]); the empty
    match that follows it at the end replaces nothing. *)
Definition re_sub_trailing (cls : N -> bool) (text : pystr) : pystr :=
  rev (dropwhile cls (rev text)).

(** [str(n)] for a natural number. *)
Definition str_of_nat (n : nat) : pystr :=
  lit (NilEmpty.string_of_uint (Nat.to_uint n)).

(** ["".join(parts)]. *)
Definition join (parts : list pystr) : pystr := List.concat parts.

End PyStr.
Import PyStr.

(** ** The validator and the normaliser *)

(** [is_valid_meter_reading], lines 22-44. *)
Definition is_valid_meter_reading (reading : pystr) : bool :=
  if py_not reading || negb (isdigit reading) then false
  else if (len reading <? 4) || (7 <? len reading) then false
  else if len (set reading) =? 1 then false
  else
    let unique_digits := len (set reading) in
    if unique_digits <? 2 then false
    else true.

(** The validator with its last rule (fewer than two distinct digits)
    taken out, as the design document proposes to collapse it. *)
Definition is_valid_meter_reading_collapsed (reading : pystr) : bool :=
  if py_not reading || negb (isdigit reading) then false
  else if (len reading <? 4) || (7 <? len reading) then false
  else if len (set reading) =? 1 then false
  else true.

(** The class kept by the first substitution,
    [[^\d\s\.\-\(\)O\|I\[\]]] being its complement. *)
Definition kept_class (c : N) : bool :=
  re_d c || re_s c || in_chars (lit ".-()O|I[]") c.

(** The class [[\.\-\(\)]] of the second substitution. *)
Definition punct_class (c : N) : bool := in_chars (lit ".-()") c.

(** The class [[^\d]] of the two anchored substitutions. *)
Definition non_digit (c : N) : bool := negb (re_d c).

(** [clean_ocr_text], lines 47-62. *)
Definition clean_ocr_text (text : pystr) : pystr :=
  if py_not text then lit ""
  else
    let text := re_sub_class (fun c => negb (kept_class c)) text in
    let text := replace (chr "|") (lit "1")
                  (replace (chr "I") (lit "1")
                     (replace (chr "O") (lit "0") text)) in
    let text := replace (chr "]") (lit "1") (replace (chr "[") (lit "1") text) in
    let text := re_sub_class punct_class text in
    let text := replace (chr " ") (lit "") text in
    let text := re_sub_leading non_digit text in
    let text := re_sub_trailing non_digit text in
    text.

(** What the three [replace] calls of lines 55-56 do to one character. *)
Definition confusable_subst (c : N) : N :=
  if (c =? chr "O")%N then chr "0"
  else if in_chars (lit "I|[]") c then chr "1"
  else c.

(** ** Errors and the invocation trace *)

(** A Python exception object (an instance of [Exception], which is what the
    [except Exception] clauses of the file catch) with its message. *)
Inductive exn : Type := Exception (msg : string).

(** The outcome of a call that may raise. *)
Inductive res (A : Type) : Type :=
| Ret (a : A)
| Raise (e : exn).
Arguments Ret {A} a.
Arguments Raise {A} e.

Definition rbind {A B : Type} (r : res A) (k : A -> res B) : res B :=
  match r with
  | Ret a => k a
  | Raise e => Raise e
  end.

(** The trace records, in order, each strategy block of
    [extract_meter_reading] that is entered and each threshold the contour
    loop starts on.  It is ghost state: the code keeps no such list. *)
Inductive event : Type :=
| Primary
| Enhanced
| Contour
| Sweep (thresh_val : Z).

(** Computations that may raise and that extend the trace.  The trace
    written before an exception stays written. *)
Definition M (A : Type) : Type := list event -> res A * list event.

Definition ret {A : Type} (a : A) : M A := fun tr => (Ret a, tr).

Definition bind {A B : Type} (m : M A) (k : A -> M B) : M B :=
  fun tr =>
    match m tr with
    | (Ret a, tr') => k a tr'
    | (Raise e, tr') => (Raise e, tr')
    end.

Definition lift {A : Type} (r : res A) : M A := fun tr => (r, tr).

Definition tick (e : event) : M unit := fun tr => (Ret tt, tr ++ [e]).

(** [try: body except Exception as e: handler]. *)
Definition try_except {A : Type} (body : M A) (handler : exn -> M A) : M A :=
  fun tr =>
    match body tr with
    | (Ret a, tr') => (Ret a, tr')
    | (Raise e, tr') => handler e tr'
    end.

Declare Scope res_scope.
Delimit Scope res_scope with res.
Notation "x <- r ;; k" := (rbind r (fun x => k))
  (at level 61, r at next level, right associativity) : res_scope.

Declare Scope M_scope.
Delimit Scope M_scope with M.
Notation "x <- m ;; k" := (bind m (fun x => k))
  (at level 61, m at next level, right associativity) : M_scope.
Notation "m ;; k" := (bind m (fun _ => k))
  (at level 61, right associativity) : M_scope.

(** ** The imaging environment *)

Inductive morph_op : Type := MORPH_CLOSE | MORPH_OPEN.

(** The calls into PIL, numpy, OpenCV and pytesseract that the file makes.
    Every one is a function of its arguments; those that can fail return a
    [res]. *)
Record Env : Type := {
  buffer : Type;
  image : Type;
  contour : Type;
  (** [np.array(Image.open(b).convert("RGB"))] *)
  open_rgb : buffer -> res image;
  (** [pytesseract.image_to_string(img, config=cfg)] *)
  image_to_string : image -> string -> res pystr;
  (** [len(img.shape)] *)
  shape_len : image -> nat;
  (** [cv2.cvtColor(img, cv2.COLOR_RGB2GRAY)] *)
  cvtColor_gray : image -> res image;
  (** [cv2.createCLAHE(clipLimit=2.0, tileGridSize=(8, 8)).apply(img)] *)
  clahe_apply : image -> res image;
  (** [cv2.threshold(img, t, 255, cv2.THRESH_BINARY)[1]] *)
  threshold : image -> Z -> res image;
  (** [cv2.morphologyEx(img, op, kernel)] with the 3x3 rectangle kernel *)
  morphologyEx : image -> morph_op -> res image;
  (** [cv2.findContours(img, cv2.RETR_EXTERNAL, cv2.CHAIN_APPROX_SIMPLE)[0]] *)
  findContours : image -> res (list contour);
  (** [cv2.boundingRect(cnt)], as [(x, y, w, h)] *)
  boundingRect : contour -> res (Z * Z * Z * Z);
  (** [cv2.contourArea(cnt)] *)
  contourArea : contour -> res Q
}.

(** [a < b] on rationals.  Areas and the aspect ratio are floats in the
    source; the ratio of two integers below 200 is at least 1/1990 away from
    0.3 and from 3 unless it equals them, so the comparisons of the source
    agree with the exact ones. *)
Definition Qltb (a b : Q) : bool := negb (Qle_bool b a).

Definition tess_config : string :=
  "--psm 6 -c tessedit_char_whitelist=0123456789"%string.

(** The thresholds of the contour loop, line 78. *)
Definition thresholds : list Z := [100; 127; 150; 180]%Z.

(** ["".join([str(i % 10) for i in range(n)])], line 102. *)
Definition placeholder (n : nat) : pystr :=
  join (map (fun i => str_of_nat (i mod 10)) (seq 0 n)).

Section Pipeline.

Variable E : Env.

(** An entry [(x, cnt, w, h, area)] of [digit_regions]. *)
Record region : Type := {
  reg_x : Z;
  reg_cnt : contour E;
  reg_w : Z;
  reg_h : Z;
  reg_area : Q
}.

(** The inner loop, lines 89-97, threading [digit_regions]. *)
Fixpoint collect_regions (contours : list (contour E))
    (digit_regions : list region) : res (list region) :=
  match contours with
  | [] => Ret digit_regions
  | cnt :: rest =>
      (box <- boundingRect E cnt ;;
       let '(x, _, w, h) := box in
       area <- contourArea E cnt ;;
       let digit_regions :=
         if (8 <? w)%Z && (w <? 200)%Z && (8 <? h)%Z && (h <? 200)%Z
            && Qltb (inject_Z 15) area
         then
           let aspect_ratio := (inject_Z w / inject_Z h)%Q in
           if Qltb (3 # 10) aspect_ratio && Qltb aspect_ratio (inject_Z 3)
           then digit_regions ++ [Build_region x cnt w h area]
           else digit_regions
         else digit_regions in
       collect_regions rest digit_regions)%res
  end.

(** Lines 79-97: the accepted regions at one threshold. *)
Definition digit_regions_at (enhanced : image E) (thresh_val : Z)
    : res (list region) :=
  (thresh <- threshold E enhanced thresh_val ;;
   morph <- morphologyEx E thresh MORPH_CLOSE ;;
   morph <- morphologyEx E morph MORPH_OPEN ;;
   contours <- findContours E morph ;;
   collect_regions contours [])%res.

(** [digit_regions.sort(key=lambda x: x[0])]: a stable sort on [x]. *)
Fixpoint insert_by_x (r : region) (l : list region) : list region :=
  match l with
  | [] => [r]
  | r' :: l' =>
      if (reg_x r <=? reg_x r')%Z then r :: l else r' :: insert_by_x r l'
  end.

Definition sort_by_x (l : list region) : list region :=
  fold_right insert_by_x [] l.

(** Lines 99-109: what one threshold does to [(best_digits, best_count)]. *)
Definition update_best (digit_regions : list region)
    (best : pystr * nat) : pystr * nat :=
  if (4 <=? List.length digit_regions) && (List.length digit_regions <=? 7)
  then
    let digit_regions := sort_by_x digit_regions in
    let result := placeholder (List.length digit_regions) in
    if snd best <? List.length digit_regions
    then (result, List.length digit_regions)
    else best
  else best.

(** The loop of line 78. *)
Fixpoint sweep (enhanced : image E) (ts : list Z) (best : pystr * nat)
    : M (pystr * nat) :=
  match ts with
  | [] => ret best
  | thresh_val :: ts' =>
      (tick (Sweep thresh_val) ;;
       digit_regions <- lift (digit_regions_at enhanced thresh_val) ;;
       sweep enhanced ts' (update_best digit_regions best))%M
  end.

(** Lines 70-73. *)
Definition contour_input (img : image E) : res (image E) :=
  (gray <- (if shape_len E img =? 3 then cvtColor_gray E img else Ret img) ;;
   clahe_apply E gray)%res.

(** [extract_digits_from_contours], lines 65-119. *)
Definition extract_digits_from_contours (img : image E) : M pystr :=
  try_except
    (enhanced <- lift (contour_input img) ;;
     best <- sweep enhanced thresholds (lit "", 0) ;;
     if negb (py_not (fst best)) then ret (fst best) else ret (lit ""))%M
    (fun _ => ret (lit "")).

(** Lines 154-159: the image the second OCR pass reads. *)
Definition enhanced_input (image_np : image E) : res (image E) :=
  (gray <- cvtColor_gray E image_np ;;
   enhanced <- clahe_apply E gray ;;
   threshold E enhanced 150)%res.

(** Method 1, lines 135-150.  [Some text] is [return text]; [None] is
    falling through to the next method. *)
Definition method1 (image_np : image E) : M (option pystr) :=
  try_except
    (tick Primary ;;
     raw_text <- lift (image_to_string E image_np tess_config) ;;
     let text := clean_ocr_text raw_text in
     if is_valid_meter_reading text then ret (Some text) else ret None)%M
    (fun _ => ret None).

(** Method 2, lines 153-175. *)
Definition method2 (image_np : image E) : M (option pystr) :=
  try_except
    (tick Enhanced ;;
     thresh <- lift (enhanced_input image_np) ;;
     raw_text <- lift (image_to_string E thresh tess_config) ;;
     let text := clean_ocr_text raw_text in
     if is_valid_meter_reading text then ret (Some text) else ret None)%M
    (fun _ => ret None).

(** Method 3, lines 178-186. *)
Definition method3 (image_np : image E) : M pystr :=
  (tick Contour ;;
   result <- extract_digits_from_contours image_np ;;
   if negb (py_not result) && is_valid_meter_reading result
   then ret result
   else ret (lit ""))%M.

(** [extract_meter_reading], lines 122-192. *)
Definition extract_meter_reading (image_bytes : buffer E) : M pystr :=
  try_except
    (image_np <- lift (open_rgb E image_bytes) ;;
     r1 <- method1 image_np ;;
     match r1 with
     | Some text => ret text
     | None =>
         r2 <- method2 image_np ;;
         match r2 with
         | Some text => ret text
         | None => method3 image_np
         end
     end)%M
    (fun _ => ret (lit "")).

(** The strategy events of a trace, the thresholds left out. *)
Definition strategies (tr : list event) : list event :=
  filter (fun e => match e with Sweep _ => false | _ => true end) tr.

(** The thresholds of a trace. *)
Definition swept (tr : list event) : list Z :=
  flat_map (fun e => match e with Sweep t => [t] | _ => [] end) tr.

(** The number of accepted regions at a threshold (0 when detection
    raises) and whether that number makes the threshold usable. *)
Definition region_count (enhanced : image E) (t : Z) : nat :=
  match digit_regions_at enhanced t with
  | Ret regions => List.length regions
  | Raise _ => 0
  end.

Definition usable (enhanced : image E) (t : Z) : bool :=
  (4 <=? region_count enhanced t) && (region_count enhanced t <=? 7).

End Pipeline.

Arguments reg_x {E} r.
Arguments reg_w {E} r.
Arguments reg_h {E} r.

(** ** Vocabulary of the statements *)

Definition all_digits (s : pystr) : Prop :=
  Forall (fun c => is_digit_char c = true) s.

Definition all_decimal (s : pystr) : Prop :=
  Forall (fun c => re_d c = true) s.

Definition two_distinct (s : pystr) : Prop :=
  exists a b, In a s /\ In b s /\ a <> b.

Definition all_identical (s : pystr) : Prop :=
  forall a b, In a s -> In b s -> a = b.

(** Strings of decimal digits and of the glyphs the OCR engine confuses
    with digits. *)
Definition digits_or_confusables (s : pystr) : Prop :=
  Forall (fun c => re_d c = true \/ In c (lit "OI|[]")) s.

(** The four strings the contour fallback can synthesise. *)
Definition placeholders : list pystr :=
  [lit "0123"; lit "01234"; lit "012345"; lit "0123456"].

(** What an OCR pass yields once normalised and validated: its candidate, or
    nothing when the text is rejected or the pass raised. *)
Definition ocr_candidate (raw : res pystr) : option pystr :=
  match raw with
  | Ret raw_text =>
      if is_valid_meter_reading (clean_ocr_text raw_text)
      then Some (clean_ocr_text raw_text)
      else None
  | Raise _ => None
  end.

Definition primary_candidate (E : Env) (image_np : image E) : option pystr :=
  ocr_candidate (image_to_string E image_np tess_config).

Definition enhanced_candidate (E : Env) (image_np : image E) : option pystr :=
  ocr_candidate
    (thresh <- enhanced_input E image_np ;;
     image_to_string E thresh tess_config)%res.

(** [update_best] as a function of the number of regions alone. *)
Definition update_count (n : nat) (best : pystr * nat) : pystr * nat :=
  if (4 <=? n) && (n <=? 7)
  then if snd best <? n then (placeholder n, n) else best
  else best.

(** The invariant of [(best_digits, best_count)] along the contour loop. *)
Definition best_inv (best : pystr * nat) : Prop :=
  best = (lit "", 0)
  \/ (4 <= snd best <= 7 /\ fst best = placeholder (snd best)).

(** What the contour fallback returns on an image and the events it
    leaves, read off a run from the empty trace. *)
Definition contour_text (E : Env) (img : image E) : pystr :=
  match fst (extract_digits_from_contours E img []) with
  | Ret r => r
  | Raise _ => lit ""
  end.

Definition contour_events (E : Env) (img : image E) : list event :=
  snd (extract_digits_from_contours E img []).

(** The fallback ladder as a function of what each strategy yields. *)
Definition ladder (E : Env) (image_bytes : buffer E) : pystr * list event :=
  match open_rgb E image_bytes with
  | Raise _ => (lit "", [])
  | Ret image_np =>
      match primary_candidate E image_np with
      | Some text => (text, [Primary])
      | None =>
          match enhanced_candidate E image_np with
          | Some text => (text, [Primary; Enhanced])
          | None =>
              (contour_text E image_np,
               [Primary; Enhanced; Contour] ++ contour_events E image_np)
          end
      end
  end.

(** The invariant of the loop that says which threshold is selected:
    after the thresholds [seen], either none was usable and nothing is held,
    or the held string is the placeholder of a usable threshold whose count
    no usable threshold of [seen] exceeds. *)
Definition selects (E : Env) (enhanced : image E) (seen : list Z)
    (best : pystr * nat) : Prop :=
  (best = (lit "", 0) /\ forall t, In t seen -> usable E enhanced t = false)
  \/ (fst best = placeholder (snd best)
      /\ exists t, In t seen /\ usable E enhanced t = true
                   /\ region_count E enhanced t = snd best
                   /\ forall t', In t' seen -> usable E enhanced t' = true ->
                                 region_count E enhanced t' <= snd best).

(** ** A small concrete environment

    Photographs are described by what the OCR engine reads on them and by the
    boxes the contour detector finds at each threshold.  It serves to run the
    pipeline on concrete inputs. *)

Module Toy.

Record box : Type := { bx : Z; bw : Z; bh : Z; barea : Q }.

Record photo : Type := {
  plain_text : res pystr;
  binarised_text : res pystr;
  boxes : Z -> res (list box);
  level : Z
}.

Definition with_level (p : photo) (t : Z) : photo :=
  {| plain_text := plain_text p; binarised_text := binarised_text p;
     boxes := boxes p; level := t |}.

Definition env : Env := {|
  buffer := option photo;
  image := photo;
  contour := box;
  open_rgb := fun b =>
    match b with
    | Some p => Ret p
    | None => Raise (Exception "cannot identify image file")
    end;
  image_to_string := fun p _ =>
    if (level p =? 0)%Z then plain_text p else binarised_text p;
  shape_len := fun _ => 3;
  cvtColor_gray := fun p => Ret p;
  clahe_apply := fun p => Ret p;
  threshold := fun p t => Ret (with_level p t);
  morphologyEx := fun p _ => Ret p;
  findContours := fun p => boxes p (level p);
  boundingRect := fun b => Ret (bx b, 0%Z, bw b, bh b);
  contourArea := fun b => Ret (barea b)
|}.

(** [n] digit-sized boxes side by side. *)
Definition digit_row (n : nat) : list box :=
  map (fun i => {| bx := 30 * Z.of_nat i; bw := 20; bh := 40;
                   barea := inject_Z 600 |}) (seq 0 n).

Definition tesseract_down : exn := Exception "tesseract is not installed".

(** The engine reads a good line on the plain photograph. *)
Definition clear_photo : photo := {|
  plain_text := Ret (lit "12O34I" ++ [LF]);
  binarised_text := Ret (lit "7");
  boxes := fun _ => Ret [];
  level := 0
|}.

(** The plain pass reads noise, the binarised pass reads a good line. *)
Definition dim_photo : photo := {|
  plain_text := Ret (lit "1111");
  binarised_text := Ret (lit "00 482");
  boxes := fun _ => Ret (digit_row 5);
  level := 0
|}.

(** The engine is missing; five boxes at 100 and 127, six at 150, nine at
    180. *)
Definition boxes_photo : photo := {|
  plain_text := Raise tesseract_down;
  binarised_text := Raise tesseract_down;
  boxes := fun t =>
    if (t =? 150)%Z then Ret (digit_row 6)
    else if (t =? 180)%Z then Ret (digit_row 9)
    else Ret (digit_row 5);
  level := 0
|}.

(** Nothing readable and nothing box-like. *)
Definition blank_photo : photo := {|
  plain_text := Ret (lit "");
  binarised_text := Raise tesseract_down;
  boxes := fun t =>
    if (t =? 127)%Z then Raise (Exception "cv2.error") else Ret (digit_row 2);
  level := 0
|}.

End Toy.

(** ** The normaliser, character by character *)

(** A decimal digit or one of the glyphs lines 55-56 turn into a digit. *)
Definition digit_or_confusable (c : N) : bool :=
  re_d c || in_chars (lit "OI|[]") c.

(** Lines 54-58 of [clean_ocr_text]: everything before the two anchored
    substitutions. *)
Definition normalise_chars (text : pystr) : pystr :=
  replace (chr " ") (lit "")
    (re_sub_class punct_class
       (replace (chr "]") (lit "1")
          (replace (chr "[") (lit "1")
             (replace (chr "|") (lit "1")
                (replace (chr "I") (lit "1")
                   (replace (chr "O") (lit "0")
                      (re_sub_class (fun c => negb (kept_class c)) text))))))).

(** What lines 54-58 make of one character. *)
Definition normalise_char (c : N) : pystr :=
  if kept_class c
  then if punct_class (confusable_subst c)
          || (confusable_subst c =? chr " ")%N
       then []
       else [confusable_subst c]
  else [].

(** Raw text whose only whitespace is the space character. *)
Definition single_line (s : pystr) : Prop :=
  Forall (fun c => re_s c = true -> c = chr " ") s.

(** Characters that can only be noise: no digit and no confusable glyph. *)
Definition noise (s : pystr) : Prop :=
  Forall (fun c => digit_or_confusable c = false) s.

(** The code points of a table of ranges, listed. *)
Definition enumerate (table : list (N * N)) : list N :=
  flat_map (fun r => map N.of_nat
                       (seq (N.to_nat (fst r))
                            (N.to_nat (snd r) - N.to_nat (fst r) + 1)))
    table.

(** The test of lines 94-96 on the fields of a region, the aspect ratio
    cleared of its division. *)
Definition digit_like {E : Env} (r : region E) : Prop :=
  (8 < reg_w r < 200)%Z /\ (8 < reg_h r < 200)%Z
  /\ (inject_Z 15 < reg_area E r)%Q
  /\ (3 * reg_h r < 10 * reg_w r)%Z /\ (reg_w r < 3 * reg_h r)%Z.

(** ** The endpoint: [aiservice/main.py] *)

(** [s.strip()]: whitespace off both ends. *)
Definition py_strip (s : pystr) : pystr :=
  rev (dropwhile re_s (rev (dropwhile re_s s))).

(** The values of the response dictionary. *)
Inductive value : Type :=
| VStr (s : pystr)
| VBool (b : bool).

(** A dictionary with string keys, in insertion order. *)
Definition dict : Type := list (string * value).

(** [d.get(key)]. *)
Fixpoint get (key : string) (d : dict) : option value :=
  match d with
  | [] => None
  | (k, v) :: d' => if String.eqb k key then Some v else get key d'
  end.

Definition keys (d : dict) : list string := map fst d.

(** What the endpoint adds to the imaging environment: the upload it
    receives and the classifier [utils.classifier.validate_image], which is
    not among the sources and is taken as it comes.  A stream is known by its
    content: [extract_meter_reading] gets it fresh from [io.BytesIO], and
    [image_stream.seek(0)] puts it back at its start before the classifier
    reads it. *)
Record Service : Type := {
  svc_env : Env;
  upload : Type;
  (** [io.BytesIO(await image.read())] *)
  read_upload : upload -> res (buffer svc_env);
  (** [validate_image(image_stream)] *)
  validate_image : buffer svc_env -> res bool
}.

Definition error_response : dict :=
  [("status"%string, VStr (lit "ERROR"))].

(** [validate_meter], lines 33-63. *)
Definition validate_meter (S : Service) (image : upload S)
    (user_reading : pystr) : M dict :=
  try_except
    (image_stream <- lift (read_upload S image) ;;
     ocr_reading <-
       try_except
         (r <- extract_meter_reading (svc_env S) image_stream ;; ret (Some r))
         (fun _ => ret None) ;;
     is_valid_image <-
       try_except (lift (validate_image S image_stream))
         (fun _ => ret true) ;;
     ret [("status"%string, VStr (lit "VALID"));
          ("meter_reading"%string,
           VStr (match ocr_reading with
                 | Some r => if negb (py_not r) then py_strip r else lit ""
                 | None => lit ""
                 end));
          ("user_reading"%string, VStr user_reading);
          ("image_valid"%string, VBool is_valid_image)])%M
    (fun _ => ret error_response).

(** The answer of the classifier as the endpoint reads it: its verdict, and
    [True] when it raised. *)
Definition image_valid (S : Service) (image_stream : buffer (svc_env S))
    : bool :=
  match validate_image S image_stream with
  | Ret b => b
  | Raise _ => true
  end.

(** A concrete service over the small environment: an upload that cannot be
    read is [None]; the classifier fails on an undecodable buffer and
    otherwise says whether the engine could read the plain photograph. *)
Module ToyService.

Definition service : Service := {|
  svc_env := Toy.env;
  upload := option (option Toy.photo);
  read_upload := fun u =>
    match u with
    | Some b => Ret b
    | None => Raise (Exception "client disconnected")
    end;
  validate_image := fun b =>
    match b with
    | Some p =>
        match Toy.plain_text p with
        | Ret _ => Ret true
        | Raise _ => Ret false
        end
    | None => Raise (Exception "cannot identify image file")
    end
|}.

End ToyService.

(** * Properties *)

(** ** Sets of characters *)

Lemma set_nonempty (s : pystr) : s <> [] -> 1 <= len (set s).
Proof.
  destruct s as [|c s']; [congruence|]. intros _.
  assert (Hin : In c (set (c :: s'))) by (apply nodup_In; now left).
  unfold len. destruct (set (c :: s')); [destruct Hin | simpl; lia].
Qed.

Lemma set_two_distinct (s : pystr) : 2 <= len (set s) <-> two_distinct s.
Proof.
  unfold len, set, two_distinct. split.
  - intros Hlen.
    pose proof (NoDup_nodup N.eq_dec s) as Hnd.
    destruct (nodup N.eq_dec s) as [|a [|b l]] eqn:Heq; simpl in Hlen; try lia.
    exists a, b. repeat split.
    + apply (nodup_In N.eq_dec). rewrite Heq. now left.
    + apply (nodup_In N.eq_dec). rewrite Heq. right. now left.
    + inversion Hnd as [|? ? Hnotin _]; subst. intros ->. apply Hnotin. now left.
  - intros (a & b & Ha & Hb & Hab).
    apply (nodup_In N.eq_dec) in Ha, Hb.
    destruct (nodup N.eq_dec s) as [|x [|y l]]; simpl in *; lia.
Qed.

Lemma all_identical_not_two (s : pystr) : all_identical s <-> ~ two_distinct s.
Proof.
  unfold all_identical, two_distinct. split.
  - intros H (a & b & Ha & Hb & Hab). apply Hab. now apply H.
  - intros H a b Ha Hb. destruct (N.eq_dec a b) as [|Hne]; [assumption|].
    exfalso. apply H. now exists a, b.
Qed.

Lemma isdigit_spec (s : pystr) :
  isdigit s = true <-> s <> [] /\ all_digits s.
Proof.
  unfold isdigit, all_digits. rewrite andb_true_iff, forallb_forall, Forall_forall.
  destruct s; simpl; intuition congruence.
Qed.

(** The validator, rule by rule. *)
Lemma is_valid_meter_reading_rules (s : pystr) :
  is_valid_meter_reading s = true <->
  s <> [] /\ all_digits s /\ 4 <= len s <= 7 /\ 2 <= len (set s).
Proof.
  unfold is_valid_meter_reading.
  destruct s as [|c s'].
  - simpl. split; [discriminate | intros [H _]; congruence].
  - cbn [py_not orb].
    destruct (isdigit (c :: s')) eqn:Hd; cbn [negb].
    + apply isdigit_spec in Hd. destruct Hd as [Hne Hall].
      pose proof (set_nonempty (c :: s') Hne) as Hpos.
      destruct (len (c :: s') <? 4) eqn:H4; cbn [orb].
      { apply Nat.ltb_lt in H4. split; [discriminate | lia]. }
      apply Nat.ltb_ge in H4.
      destruct (7 <? len (c :: s')) eqn:H7.
      { apply Nat.ltb_lt in H7. split; [discriminate | lia]. }
      apply Nat.ltb_ge in H7.
      destruct (len (set (c :: s')) =? 1) eqn:H1.
      { apply Nat.eqb_eq in H1. split; [discriminate | lia]. }
      apply Nat.eqb_neq in H1.
      destruct (len (set (c :: s')) <? 2) eqn:H2.
      { apply Nat.ltb_lt in H2. lia. }
      apply Nat.ltb_ge in H2. intuition.
    + split; [discriminate|]. intros (Hne & Hall & _).
      assert (isdigit (c :: s') = true) by (apply isdigit_spec; auto).
      congruence.
Qed.

(** C2.  [is_valid_meter_reading s] is [True] exactly when [s] is
    non-empty, every character of [s] is a digit (in the sense of
    [str.isdigit]), the length of [s] is between 4 and 7, and [s] holds at
    least two distinct digit characters.  In particular the empty string, a
    string with a non-digit, a string shorter than 4 or longer than 7, and a
    string whose characters are all the same are rejected. *)
Theorem is_valid_meter_reading_iff (s : pystr) :
  (is_valid_meter_reading s = true <->
     s <> [] /\ all_digits s /\ 4 <= len s <= 7 /\ two_distinct s)
  /\ (s = [] -> is_valid_meter_reading s = false)
  /\ (~ all_digits s -> is_valid_meter_reading s = false)
  /\ (len s < 4 \/ 7 < len s -> is_valid_meter_reading s = false)
  /\ (all_identical s -> is_valid_meter_reading s = false).
Proof.
  pose proof (is_valid_meter_reading_rules s) as R.
  pose proof (set_two_distinct s) as T.
  assert (Hiff : is_valid_meter_reading s = true <->
            s <> [] /\ all_digits s /\ 4 <= len s <= 7 /\ two_distinct s)
    by (rewrite R; intuition).
  split; [exact Hiff|].
  assert (Hfalse : forall P : Prop,
            (is_valid_meter_reading s = true -> P -> False) ->
            P -> is_valid_meter_reading s = false).
  { intros P HP p. destruct (is_valid_meter_reading s); [|reflexivity].
    exfalso. now apply HP. }
  repeat split.
  - apply Hfalse. intros Hv He. apply Hiff in Hv. tauto.
  - apply Hfalse. intros Hv He. apply Hiff in Hv. tauto.
  - apply Hfalse. intros Hv He. apply Hiff in Hv. lia.
  - apply Hfalse. intros Hv He. apply Hiff in Hv.
    apply all_identical_not_two in He. tauto.
Qed.

Lemma is_valid_meter_reading_iff_witness :
  is_valid_meter_reading (lit "120341") = true
  /\ is_valid_meter_reading (lit "") = false
  /\ is_valid_meter_reading (lit "12a4") = false
  /\ is_valid_meter_reading (lit "123") = false
  /\ is_valid_meter_reading (lit "1111") = false.
Proof.
  split.
  - apply (proj1 (is_valid_meter_reading_iff (lit "120341"))).
    split; [discriminate|]. split.
    + repeat constructor.
    + split; [vm_compute; lia|].
      exists (chr "1"), (chr "2"). vm_compute. intuition discriminate.
  - split; [|split; [|split]].
    + apply (proj1 (proj2 (is_valid_meter_reading_iff (lit "")))). reflexivity.
    + apply (proj1 (proj2 (proj2 (is_valid_meter_reading_iff (lit "12a4"))))).
      intros H. apply Forall_forall with (x := chr "a") in H.
      * vm_compute in H. discriminate.
      * vm_compute. tauto.
    + apply (proj1 (proj2 (proj2 (proj2 (is_valid_meter_reading_iff (lit "123")))))).
      left. vm_compute. lia.
    + apply (proj2 (proj2 (proj2 (proj2 (is_valid_meter_reading_iff (lit "1111")))))).
      intros a b Ha Hb. vm_compute in Ha, Hb.
      intuition congruence.
Defined.

(** C10.  The rule "fewer than 2 distinct digits" never fires: the validator
    equals the validator without it on every string, because a string that
    passed the emptiness check and the all-same-digits check has at least two
    distinct characters. *)
Theorem is_valid_meter_reading_last_rule_redundant (s : pystr) :
  is_valid_meter_reading s = is_valid_meter_reading_collapsed s
  /\ (py_not s = false -> (len (set s) =? 1) = false ->
      (len (set s) <? 2) = false).
Proof.
  assert (Hrule : py_not s = false -> (len (set s) =? 1) = false ->
                  (len (set s) <? 2) = false).
  { intros Hne H1. apply Nat.eqb_neq in H1. apply Nat.ltb_ge.
    assert (Hs : s <> []) by (destruct s; [discriminate | congruence]).
    pose proof (set_nonempty s Hs). lia. }
  split; [|exact Hrule].
  unfold is_valid_meter_reading, is_valid_meter_reading_collapsed.
  destruct (py_not s) eqn:Hn; cbn [orb]; [reflexivity|].
  destruct (negb (isdigit s)); [reflexivity|].
  destruct ((len s <? 4) || (7 <? len s)); [reflexivity|].
  destruct (len (set s) =? 1) eqn:H1; [reflexivity|].
  cbv zeta. now rewrite Hrule.
Qed.

Lemma is_valid_meter_reading_last_rule_redundant_witness :
  is_valid_meter_reading (lit "1121") = is_valid_meter_reading_collapsed (lit "1121")
  /\ (len (set (lit "1121")) <? 2) = false.
Proof.
  split.
  - apply (proj1 (is_valid_meter_reading_last_rule_redundant (lit "1121"))).
  - apply (proj2 (is_valid_meter_reading_last_rule_redundant (lit "1121")));
      reflexivity.
Defined.

(** ** The normaliser *)

Lemma filter_all {A : Type} (f : A -> bool) (l : list A) :
  Forall (fun x => f x = true) l -> filter f l = l.
Proof.
  induction 1 as [|x l Hx _ IH]; simpl; [reflexivity|].
  now rewrite Hx, IH.
Qed.

Lemma replace_absent (old : N) (new text : pystr) :
  ~ In old text -> replace old new text = text.
Proof.
  unfold replace. induction text as [|c text IH]; simpl; intros Hin; [reflexivity|].
  destruct (N.eqb_spec c old) as [->|_]; [exfalso; apply Hin; now left|].
  simpl. f_equal. apply IH. intros H. apply Hin. now right.
Qed.

Lemma replace_one (old new : N) (text : pystr) :
  replace old [new] text = map (fun c => if (c =? old)%N then new else c) text.
Proof.
  unfold replace. induction text as [|c text IH]; simpl; [reflexivity|].
  rewrite IH. now destruct (c =? old)%N.
Qed.

Lemma replace_delete (old : N) (text : pystr) :
  replace old [] text = filter (fun c => negb (c =? old)%N) text.
Proof.
  unfold replace. induction text as [|c text IH]; simpl; [reflexivity|].
  rewrite IH. now destruct (c =? old)%N.
Qed.

Lemma dropwhile_incl (p : N -> bool) (s : pystr) (c : N) :
  In c (dropwhile p s) -> In c s.
Proof.
  induction s as [|a s IH]; simpl; [tauto|].
  destruct (p a); simpl; tauto.
Qed.

Lemma dropwhile_all_decimal (s : pystr) :
  all_decimal s -> dropwhile non_digit s = s.
Proof.
  destruct 1 as [|c s Hc _]; simpl; [reflexivity|].
  unfold non_digit. now rewrite Hc.
Qed.

(** A decimal digit is none of the characters the normaliser names. *)
Lemma decimal_not_named (c k : N) :
  re_d c = true -> In k (lit ".-()O|I[] ") -> (c =? k)%N = false.
Proof.
  intros Hc Hk. destruct (N.eqb_spec c k) as [->|]; [|reflexivity].
  exfalso. vm_compute in Hk.
  repeat (destruct Hk as [<-|Hk]; [vm_compute in Hc; discriminate|]).
  exact Hk.
Qed.

Lemma decimal_kept (c : N) : re_d c = true -> kept_class c = true.
Proof. unfold kept_class. now intros ->. Qed.

Lemma decimal_not_punct (c : N) : re_d c = true -> punct_class c = false.
Proof.
  intros Hc. unfold punct_class, in_chars. simpl.
  rewrite !(decimal_not_named c) by (assumption || (vm_compute; tauto)).
  reflexivity.
Qed.

(** Lines 57-60 leave a string of decimal digits as it is. *)
Lemma clean_tail_all_decimal (t : pystr) :
  all_decimal t ->
  re_sub_trailing non_digit
    (re_sub_leading non_digit
       (replace (chr " ") (lit "") (re_sub_class punct_class t))) = t.
Proof.
  intros Ht. unfold re_sub_class, re_sub_leading, re_sub_trailing.
  rewrite filter_all.
  2:{ eapply Forall_impl; [|exact Ht]. simpl. intros c Hc.
      now rewrite decimal_not_punct. }
  rewrite replace_absent.
  2:{ intros Hin. unfold all_decimal in Ht. rewrite Forall_forall in Ht.
      apply Ht in Hin. vm_compute in Hin. discriminate. }
  rewrite (dropwhile_all_decimal t) by exact Ht.
  rewrite (dropwhile_all_decimal (rev t)) by (apply Forall_rev; exact Ht).
  apply rev_involutive.
Qed.

(** C9.  A string made of decimal digits only (the characters [\d] matches,
    the ten ASCII digits among them) is returned unchanged by
    [clean_ocr_text]. *)
Theorem clean_ocr_text_digits_unchanged :
  (forall s, all_decimal s -> clean_ocr_text s = s)
  /\ (forall s, forallb ascii_digit s = true -> clean_ocr_text s = s).
Proof.
  assert (Hmain : forall s, all_decimal s -> clean_ocr_text s = s).
  { intros s Hs. unfold clean_ocr_text.
    destruct (py_not s) eqn:Hn; [destruct s; [reflexivity | discriminate]|].
    cbv zeta. unfold re_sub_class at 2.
    rewrite filter_all.
    2:{ eapply Forall_impl; [|exact Hs]. simpl. intros c Hc.
        now rewrite decimal_kept. }
    assert (Habs : forall k, In k (lit ".-()O|I[] ") -> ~ In k s).
    { intros k Hk Hin. unfold all_decimal in Hs. rewrite Forall_forall in Hs.
      pose proof (decimal_not_named k k (Hs k Hin) Hk) as H.
      rewrite N.eqb_refl in H. discriminate. }
    rewrite (replace_absent (chr "O") _ s) by (apply Habs; vm_compute; tauto).
    rewrite (replace_absent (chr "I") _ s) by (apply Habs; vm_compute; tauto).
    rewrite (replace_absent (chr "|") _ s) by (apply Habs; vm_compute; tauto).
    rewrite (replace_absent (chr "[") _ s) by (apply Habs; vm_compute; tauto).
    rewrite (replace_absent (chr "]") _ s) by (apply Habs; vm_compute; tauto).
    now apply clean_tail_all_decimal. }
  split; [exact Hmain|].
  intros s Hs. apply Hmain. unfold all_decimal. rewrite Forall_forall.
  rewrite forallb_forall in Hs. intros c Hc. apply Hs in Hc.
  unfold ascii_digit in Hc. apply andb_true_iff in Hc. destruct Hc as [Hlo Hhi].
  unfold re_d, decimal_table. cbn [in_ranges existsb fst snd].
  now rewrite Hlo, Hhi.
Qed.

Lemma clean_ocr_text_digits_unchanged_witness :
  clean_ocr_text (lit "120341") = lit "120341"
  /\ clean_ocr_text (lit "0007") = lit "0007".
Proof.
  split.
  - apply (proj1 clean_ocr_text_digits_unchanged). repeat constructor.
  - apply (proj2 clean_ocr_text_digits_unchanged). reflexivity.
Defined.

(** The replacements of lines 55-56, character by character. *)
Lemma replace_chain (text : pystr) :
  replace (chr "]") (lit "1")
    (replace (chr "[") (lit "1")
       (replace (chr "|") (lit "1")
          (replace (chr "I") (lit "1") (replace (chr "O") (lit "0") text))))
  = map (fun c =>
           if (c =? chr "O")%N then chr "0"
           else if (c =? chr "I")%N then chr "1"
           else if (c =? chr "|")%N then chr "1"
           else if (c =? chr "[")%N then chr "1"
           else if (c =? chr "]")%N then chr "1"
           else c) text.
Proof.
  change (lit "1") with [chr "1"]. change (lit "0") with [chr "0"].
  rewrite !replace_one, !map_map. apply map_ext. intros c.
  destruct (N.eqb_spec c (chr "O")) as [->|_]; [reflexivity|].
  destruct (N.eqb_spec c (chr "I")) as [->|_]; [reflexivity|].
  destruct (N.eqb_spec c (chr "|")) as [->|_]; [reflexivity|].
  destruct (N.eqb_spec c (chr "[")) as [->|_]; [reflexivity|].
  destruct (N.eqb_spec c (chr "]")) as [->|_]; reflexivity.
Qed.

Lemma replace_chain_subst (c : N) :
  (if (c =? chr "O")%N then chr "0"
   else if (c =? chr "I")%N then chr "1"
   else if (c =? chr "|")%N then chr "1"
   else if (c =? chr "[")%N then chr "1"
   else if (c =? chr "]")%N then chr "1"
   else c) = confusable_subst c.
Proof.
  unfold confusable_subst, in_chars. cbn [lit list_ascii_of_string map existsb].
  fold (chr "I") (chr "|") (chr "[") (chr "]").
  destruct (c =? chr "O")%N; [reflexivity|].
  destruct (c =? chr "I")%N; [reflexivity|].
  destruct (c =? chr "|")%N; [reflexivity|].
  destruct (c =? chr "[")%N; [reflexivity|].
  destruct (c =? chr "]")%N; reflexivity.
Qed.

Lemma confusable_subst_decimal (c : N) :
  re_d c = true \/ In c (lit "OI|[]") -> re_d (confusable_subst c) = true.
Proof.
  intros [Hc|Hc].
  - rewrite <- replace_chain_subst.
    rewrite !(decimal_not_named c) by (assumption || (vm_compute; tauto)).
    exact Hc.
  - vm_compute in Hc.
    repeat (destruct Hc as [<-|Hc]; [reflexivity|]). destruct Hc.
Qed.

(** C8.  On a string of digits and confusable glyphs, [clean_ocr_text]
    replaces each letter O by 0 and each letter I, vertical bar, opening and
    closing square bracket by 1, and changes nothing else; in particular it
    maps [12O34I] to [120341]. *)
Theorem clean_ocr_text_substitutes :
  (forall s, digits_or_confusables s ->
             clean_ocr_text s = map confusable_subst s)
  /\ confusable_subst (chr "O") = chr "0"
  /\ confusable_subst (chr "I") = chr "1"
  /\ confusable_subst (chr "|") = chr "1"
  /\ confusable_subst (chr "[") = chr "1"
  /\ confusable_subst (chr "]") = chr "1"
  /\ clean_ocr_text (lit "12O34I") = lit "120341".
Proof.
  split; [|repeat split; reflexivity].
  intros s Hs. unfold clean_ocr_text.
  destruct (py_not s) eqn:Hn; [destruct s; [reflexivity | discriminate]|].
  cbv zeta. unfold re_sub_class at 2.
  rewrite filter_all.
  2:{ eapply Forall_impl; [|exact Hs]. simpl. intros c [Hc|Hc].
      - now rewrite decimal_kept.
      - vm_compute in Hc.
        repeat (destruct Hc as [<-|Hc]; [reflexivity|]). destruct Hc. }
  rewrite replace_chain.
  rewrite (map_ext _ _ replace_chain_subst).
  apply clean_tail_all_decimal.
  unfold all_decimal. rewrite Forall_map.
  eapply Forall_impl; [|exact Hs]. exact confusable_subst_decimal.
Qed.

Lemma clean_ocr_text_substitutes_witness :
  clean_ocr_text (lit "[4]O|I7") = map confusable_subst (lit "[4]O|I7").
Proof.
  apply (proj1 clean_ocr_text_substitutes).
  repeat constructor; vm_compute; tauto.
Defined.

(** What a character of the normaliser's output can be: a decimal digit, or
    a whitespace character other than the space. *)
Lemma clean_ocr_text_chars (s : pystr) (c : N) :
  In c (clean_ocr_text s) ->
  re_d c = true \/ (re_s c = true /\ c <> chr " ").
Proof.
  unfold clean_ocr_text. destruct (py_not s); [intros []|].
  cbv zeta. unfold re_sub_trailing, re_sub_leading.
  intros H. apply in_rev in H. apply dropwhile_incl in H.
  apply in_rev in H. apply dropwhile_incl in H.
  change (lit "") with (@nil N) in H.
  rewrite replace_delete in H. apply filter_In in H. destruct H as [H Hsp].
  apply filter_In in H. destruct H as [H Hpunct].
  rewrite replace_chain in H. apply in_map_iff in H.
  destruct H as (a & Hac & Ha).
  apply filter_In in Ha. destruct Ha as [_ Hkept].
  rewrite negb_involutive in Hkept.
  rewrite replace_chain_subst in Hac.
  apply negb_true_iff, N.eqb_neq in Hsp.
  destruct (re_d a) eqn:Hda.
  - left. subst c. apply confusable_subst_decimal. now left.
  - destruct (re_s a) eqn:Hsa.
    + assert (Hfix : confusable_subst a = a).
      { unfold confusable_subst, in_chars.
        cbn [lit list_ascii_of_string map existsb].
        repeat match goal with
               | |- context [(a =? ?k)%N] =>
                   destruct (N.eqb_spec a k) as [Hk|_];
                   [rewrite Hk in Hsa; vm_compute in Hsa; discriminate|]
               end.
        reflexivity. }
      right. rewrite Hfix in Hac. subst c. now split.
    + left. unfold kept_class in Hkept. rewrite Hda, Hsa in Hkept.
      cbn [orb] in Hkept. unfold in_chars in Hkept.
      apply existsb_exists in Hkept. destruct Hkept as (k & Hk & Hak).
      apply N.eqb_eq in Hak. subst k. vm_compute in Hk.
      repeat (destruct Hk as [<-|Hk];
              [first [ subst c; reflexivity
                     | subst c; vm_compute in Hpunct; discriminate ]|]).
      destruct Hk.
Qed.

(** C7 fails on the code: a line feed between two digits survives
    [clean_ocr_text], so its output is not always made of digits (and the
    validator then rejects it). *)
Theorem clean_ocr_text_keeps_line_feed :
  clean_ocr_text (lit "12" ++ [LF] ++ lit "34") = lit "12" ++ [LF] ++ lit "34"
  /\ is_digit_char LF = false
  /\ ~ all_digits (clean_ocr_text (lit "12" ++ [LF] ++ lit "34"))
  /\ is_valid_meter_reading (clean_ocr_text (lit "12" ++ [LF] ++ lit "34")) = false.
Proof.
  repeat split.
  intros H. apply Forall_forall with (x := LF) in H.
  - vm_compute in H. discriminate.
  - vm_compute. tauto.
Qed.

(** ** The contour fallback *)

Lemma str_of_nat_digit (d : nat) : d < 10 -> len (str_of_nat d) = 1.
Proof.
  intros H. do 10 (destruct d as [|d]; [reflexivity|]). lia.
Qed.

Lemma placeholder_length (n : nat) : len (placeholder n) = n.
Proof.
  unfold placeholder, join, len.
  assert (H : forall l : list nat,
             List.length (List.concat (map (fun i => str_of_nat (i mod 10)) l))
             = List.length l).
  { induction l as [|i l IH]; [reflexivity|].
    cbn [map List.concat]. rewrite length_app, IH.
    pose proof (str_of_nat_digit (i mod 10)) as Hd. unfold len in Hd.
    rewrite Hd; [reflexivity|]. apply Nat.mod_upper_bound. lia. }
  apply eq_trans with (1 := H (seq 0 n)). apply length_seq.
Qed.

Lemma placeholder_values (n : nat) :
  4 <= n <= 7 -> In (placeholder n) placeholders.
Proof.
  intros H.
  assert (Hn : n = 4 \/ n = 5 \/ n = 6 \/ n = 7) by lia.
  destruct Hn as [-> | [-> | [-> | ->]]]; vm_compute; tauto.
Qed.

Lemma placeholders_valid (r : pystr) :
  In r placeholders -> is_valid_meter_reading r = true.
Proof.
  intros H. unfold placeholders in H. simpl in H.
  repeat (destruct H as [<-|H]; [reflexivity|]). destruct H.
Qed.

Lemma placeholders_nonempty (r : pystr) : In r placeholders -> py_not r = false.
Proof.
  intros H. unfold placeholders in H. simpl in H.
  repeat (destruct H as [<-|H]; [reflexivity|]). destruct H.
Qed.

Lemma update_count_inv (n : nat) (best : pystr * nat) :
  best_inv best -> best_inv (update_count n best).
Proof.
  intros Hb. unfold update_count.
  destruct ((4 <=? n) && (n <=? 7)) eqn:Hn; [|assumption].
  destruct (snd best <? n); [|assumption].
  apply andb_true_iff in Hn. destruct Hn as [H4 H7].
  apply Nat.leb_le in H4, H7. right. simpl. split; [lia | reflexivity].
Qed.

Section ContourFacts.

Variable E : Env.

Lemma insert_by_x_length (r : region E) (l : list (region E)) :
  List.length (insert_by_x E r l) = S (List.length l).
Proof.
  induction l as [|r' l IH]; simpl; [reflexivity|].
  destruct (reg_x r <=? reg_x r')%Z; simpl; [reflexivity | now rewrite IH].
Qed.

Lemma sort_by_x_length (l : list (region E)) :
  List.length (sort_by_x E l) = List.length l.
Proof.
  induction l as [|r l IH]; simpl; [reflexivity|].
  now rewrite insert_by_x_length, IH.
Qed.

Lemma update_best_count (regions : list (region E)) (best : pystr * nat) :
  update_best E regions best = update_count (List.length regions) best.
Proof.
  unfold update_best, update_count. cbv zeta.
  now rewrite sort_by_x_length.
Qed.

(** One turn of the loop. *)
Lemma sweep_cons (enhanced : image E) (t : Z) (ts : list Z)
    (best : pystr * nat) (tr : list event) :
  sweep E enhanced (t :: ts) best tr =
  match digit_regions_at E enhanced t with
  | Ret regions =>
      sweep E enhanced ts (update_count (List.length regions) best)
        (tr ++ [Sweep t])
  | Raise e => (Raise e, tr ++ [Sweep t])
  end.
Proof.
  cbn [sweep]. unfold bind, tick, lift.
  destruct (digit_regions_at E enhanced t); [|reflexivity].
  now rewrite update_best_count.
Qed.

(** The loop only appends to the trace, and what it appends and returns
    does not depend on the trace it starts from. *)
Lemma sweep_trace (enhanced : image E) (ts : list Z) :
  forall best tr,
    sweep E enhanced ts best tr =
    (fst (sweep E enhanced ts best []),
     tr ++ snd (sweep E enhanced ts best [])).
Proof.
  induction ts as [|t ts IH]; intros best tr.
  - simpl. unfold ret. simpl. now rewrite app_nil_r.
  - rewrite !sweep_cons.
    destruct (digit_regions_at E enhanced t) as [regions|e]; [|reflexivity].
    rewrite (IH _ (tr ++ [Sweep t])), (IH _ ([] ++ [Sweep t])).
    simpl. now rewrite <- app_assoc.
Qed.

Lemma sweep_inv (enhanced : image E) (ts : list Z) :
  forall best tr b tr',
    best_inv best ->
    sweep E enhanced ts best tr = (Ret b, tr') -> best_inv b.
Proof.
  induction ts as [|t ts IH]; intros best tr b tr' Hb Hrun.
  - simpl in Hrun. unfold ret in Hrun. now inversion Hrun; subst.
  - rewrite sweep_cons in Hrun.
    destruct (digit_regions_at E enhanced t) as [regions|e]; [|discriminate].
    eapply IH; [|exact Hrun]. now apply update_count_inv.
Qed.

(** The thresholds are taken in the order of the list, up to the first one
    at which detection raises. *)
Lemma sweep_events (enhanced : image E) (ts : list Z) :
  forall best,
  exists done rest,
    snd (sweep E enhanced ts best []) = map Sweep done /\ ts = done ++ rest.
Proof.
  induction ts as [|t ts IH]; intros best.
  - exists [], []. split; reflexivity.
  - rewrite sweep_cons.
    destruct (digit_regions_at E enhanced t) as [regions|e].
    + rewrite sweep_trace.
      destruct (IH (update_count (List.length regions) best))
        as (done & rest & Hev & Hts).
      exists (t :: done), rest. simpl. rewrite Hev, Hts. split; reflexivity.
    + exists [t], ts. split; reflexivity.
Qed.

(** When detection raises at no threshold the loop is a fold over the
    region counts. *)
Lemma sweep_ok (enhanced : image E) (ts : list Z) :
  (forall t, In t ts -> exists regions,
               digit_regions_at E enhanced t = Ret regions) ->
  forall best tr,
    sweep E enhanced ts best tr =
    (Ret (fold_left (fun b t => update_count (region_count E enhanced t) b)
            ts best),
     tr ++ map Sweep ts).
Proof.
  induction ts as [|t ts IH]; intros Hok best tr.
  - simpl. unfold ret. now rewrite app_nil_r.
  - destruct (Hok t (or_introl eq_refl)) as (regions & Hreg).
    assert (Hc : region_count E enhanced t = List.length regions)
      by (unfold region_count; now rewrite Hreg).
    rewrite sweep_cons, Hreg.
    rewrite IH by (intros t' Ht'; apply Hok; now right).
    cbn [fold_left map]. rewrite Hc, <- app_assoc. reflexivity.
Qed.

(** [extract_digits_from_contours] returns, whatever happens inside. *)
Lemma extract_digits_from_contours_run (img : image E) (tr : list event) :
  extract_digits_from_contours E img tr =
  (Ret (contour_text E img), tr ++ contour_events E img).
Proof.
  unfold contour_text, contour_events, extract_digits_from_contours.
  unfold try_except, bind, lift.
  destruct (contour_input E img) as [enhanced|e].
  - rewrite (sweep_trace enhanced thresholds (lit "", 0) tr).
    rewrite (sweep_trace enhanced thresholds (lit "", 0) []).
    destruct (sweep E enhanced thresholds (lit "", 0) []) as [[best|e] evs];
      simpl; [destruct (py_not (fst best))|]; reflexivity.
  - simpl. unfold ret. now rewrite app_nil_r.
Qed.

Lemma contour_text_cases (img : image E) :
  contour_text E img = lit "" \/ In (contour_text E img) placeholders.
Proof.
  unfold contour_text, extract_digits_from_contours, try_except, bind, lift.
  destruct (contour_input E img) as [enhanced|e]; [|now left].
  destruct (sweep E enhanced thresholds (lit "", 0) []) as [[best|e] evs] eqn:Hrun;
    [|now left].
  apply sweep_inv in Hrun; [|now left].
  destruct Hrun as [->|[Hn Hbest]]; [now left|].
  destruct (py_not (fst best)); [now left|].
  right. simpl. rewrite Hbest. now apply placeholder_values.
Qed.

Lemma contour_events_prefix (img : image E) :
  exists done rest,
    contour_events E img = map Sweep done /\ thresholds = done ++ rest.
Proof.
  unfold contour_events, extract_digits_from_contours, try_except, bind, lift.
  destruct (contour_input E img) as [enhanced|e].
  - destruct (sweep_events enhanced thresholds (lit "", 0))
      as (done & rest & Hev & Hts).
    exists done, rest. split; [|exact Hts]. rewrite <- Hev.
    destruct (sweep E enhanced thresholds (lit "", 0) []) as [[best|e] evs];
      simpl; [destruct (py_not (fst best))|]; reflexivity.
  - exists [], thresholds. split; reflexivity.
Qed.

End ContourFacts.

(** ** Which threshold wins *)

Section Selection.

Variable E : Env.
Variable enhanced : image E.

Lemma usable_spec (t : Z) :
  usable E enhanced t = true <-> 4 <= region_count E enhanced t <= 7.
Proof.
  unfold usable. rewrite andb_true_iff, !Nat.leb_le. tauto.
Qed.

Lemma selects_step (seen : list Z) (best : pystr * nat) (t : Z) :
  selects E enhanced seen best ->
  selects E enhanced (seen ++ [t])
    (update_count (region_count E enhanced t) best).
Proof.
  intros Hsel. unfold update_count. fold (usable E enhanced t).
  destruct (usable E enhanced t) eqn:Hu.
  - pose proof (proj1 (usable_spec t) Hu) as Hn.
    destruct (snd best <? region_count E enhanced t) eqn:Hlt.
    + apply Nat.ltb_lt in Hlt. right. simpl. split; [reflexivity|].
      exists t. repeat split; [apply in_or_app; right; now left | assumption |].
      intros t' Ht' Hu'. apply in_app_or in Ht'.
      destruct Ht' as [Ht'|[<-|[]]]; [|lia].
      destruct Hsel as [[_ Hnone]|(_ & t0 & _ & _ & _ & Hmax)].
      * rewrite (Hnone t' Ht') in Hu'. discriminate.
      * specialize (Hmax t' Ht' Hu'). lia.
    + apply Nat.ltb_ge in Hlt.
      destruct Hsel as [[-> _]|(Hbest & t0 & Ht0 & Hu0 & Hc0 & Hmax)].
      * simpl in Hlt. lia.
      * right. split; [assumption|].
        exists t0. repeat split; [apply in_or_app; now left | assumption..|].
        intros t' Ht' Hu'. apply in_app_or in Ht'.
        destruct Ht' as [Ht'|[<-|[]]]; [now apply Hmax | assumption].
  - destruct Hsel as [[Hbest Hnone]|(Hbest & t0 & Ht0 & Hu0 & Hc0 & Hmax)].
    + left. split; [assumption|]. intros t' Ht'. apply in_app_or in Ht'.
      destruct Ht' as [Ht'|[<-|[]]]; [now apply Hnone | assumption].
    + right. split; [assumption|].
      exists t0. repeat split; [apply in_or_app; now left | assumption..|].
      intros t' Ht' Hu'. apply in_app_or in Ht'.
      destruct Ht' as [Ht'|[<-|[]]]; [now apply Hmax | congruence].
Qed.

Lemma selects_fold (ts : list Z) :
  forall seen best,
    selects E enhanced seen best ->
    selects E enhanced (seen ++ ts)
      (fold_left (fun b t => update_count (region_count E enhanced t) b)
         ts best).
Proof.
  induction ts as [|t ts IH]; intros seen best Hsel.
  - simpl. now rewrite app_nil_r.
  - cbn [fold_left].
    replace (seen ++ t :: ts) with ((seen ++ [t]) ++ ts)
      by (now rewrite <- app_assoc).
    apply IH. now apply selects_step.
Qed.

(** The contour fallback on an image whose detection raises nowhere. *)
Lemma contour_selects (img : image E) :
  contour_input E img = Ret enhanced ->
  (forall t, In t thresholds ->
             exists regions, digit_regions_at E enhanced t = Ret regions) ->
  contour_events E img = map Sweep thresholds
  /\ ((contour_text E img = lit ""
       /\ forall t, In t thresholds -> usable E enhanced t = false)
      \/ (exists t, In t thresholds /\ usable E enhanced t = true
            /\ contour_text E img = placeholder (region_count E enhanced t)
            /\ forall t', In t' thresholds -> usable E enhanced t' = true ->
                 region_count E enhanced t' <= region_count E enhanced t)).
Proof.
  intros Hin Hok.
  unfold contour_events, contour_text, extract_digits_from_contours.
  unfold try_except, bind, lift. rewrite Hin.
  rewrite (sweep_ok E enhanced thresholds Hok).
  assert (Hsel : selects E enhanced ([] ++ thresholds)
            (fold_left
               (fun b t => update_count (region_count E enhanced t) b)
               thresholds (lit "", 0))).
  { apply selects_fold. left. split; [reflexivity | intros t []]. }
  cbn [app] in Hsel.
  destruct Hsel as [[Hbest Hnone]|(Hbest & t & Ht & Hu & Hc & Hmax)].
  - rewrite Hbest. simpl. split; [reflexivity|]. left. now split.
  - set (best := fold_left _ thresholds _) in *.
    assert (Hne : py_not (fst best) = false).
    { pose proof (placeholder_length (snd best)) as Hl.
      rewrite <- Hbest in Hl. apply usable_spec in Hu.
      destruct (fst best); [simpl in Hl; lia | reflexivity]. }
    rewrite Hne. simpl. split; [reflexivity|]. right.
    exists t. rewrite Hc. repeat split; assumption.
Qed.

(** An error at some threshold empties the result of the fallback. *)
Lemma sweep_raises (ts : list Z) :
  forall t e, In t ts -> digit_regions_at E enhanced t = Raise e ->
  forall best tr, exists e' tr', sweep E enhanced ts best tr = (Raise e', tr').
Proof.
  induction ts as [|t0 ts IH]; intros t e Ht Hraise best tr; [destruct Ht|].
  rewrite sweep_cons.
  destruct (digit_regions_at E enhanced t0) as [regions|e0] eqn:H0.
  - destruct Ht as [->|Ht]; [congruence|].
    now apply (IH t e).
  - now exists e0, (tr ++ [Sweep t0]).
Qed.

End Selection.

(** C5.  When no step of the contour analysis raises,
    [extract_digits_from_contours] runs the thresholds 100, 127, 150, 180 in
    this order; a threshold is usable exactly when its number of accepted
    regions is between 4 and 7; the result is the empty string when no
    threshold is usable, and otherwise the placeholder of a usable threshold
    with the largest number of regions, whose length is that number. *)
Theorem extract_digits_from_contours_selects
    (E : Env) (img enhanced : image E) (tr : list event) :
  contour_input E img = Ret enhanced ->
  (forall t, In t thresholds ->
             exists regions, digit_regions_at E enhanced t = Ret regions) ->
  exists r,
    extract_digits_from_contours E img tr =
      (Ret r, tr ++ [Sweep 100; Sweep 127; Sweep 150; Sweep 180])
    /\ (forall t, usable E enhanced t = true <->
                  4 <= region_count E enhanced t <= 7)
    /\ ((r = lit "" /\ forall t, In t thresholds -> usable E enhanced t = false)
        \/ (exists t, In t thresholds /\ usable E enhanced t = true
              /\ r = placeholder (region_count E enhanced t)
              /\ len r = region_count E enhanced t
              /\ forall t', In t' thresholds -> usable E enhanced t' = true ->
                   region_count E enhanced t' <= region_count E enhanced t)).
Proof.
  intros Hin Hok.
  destruct (contour_selects E enhanced img Hin Hok) as [Hev Hsel].
  exists (contour_text E img).
  rewrite extract_digits_from_contours_run, Hev.
  split; [reflexivity|]. split; [apply usable_spec|].
  destruct Hsel as [Hnone|(t & Ht & Hu & Hr & Hmax)]; [now left|].
  right. exists t. repeat split; try assumption.
  rewrite Hr. apply placeholder_length.
Qed.

Lemma extract_digits_from_contours_selects_witness :
  exists r,
    extract_digits_from_contours Toy.env Toy.boxes_photo [Contour] =
      (Ret r, [Contour; Sweep 100; Sweep 127; Sweep 150; Sweep 180])
    /\ r = lit "012345".
Proof.
  destruct (extract_digits_from_contours_selects
              Toy.env Toy.boxes_photo Toy.boxes_photo [Contour] eq_refl)
    as (r & Hrun & _ & _).
  - intros t Ht. unfold thresholds in Ht. simpl in Ht.
    repeat (destruct Ht as [<-|Ht]; [eexists; vm_compute; reflexivity|]).
    destruct Ht.
  - exists r. split; [exact Hrun|].
    vm_compute in Hrun. now inversion Hrun.
Defined.

(** ** The orchestrator *)

Lemma ocr_candidate_valid (raw : res pystr) (text : pystr) :
  ocr_candidate raw = Some text -> is_valid_meter_reading text = true.
Proof.
  unfold ocr_candidate. destruct raw as [raw_text|e]; [|discriminate].
  destruct (is_valid_meter_reading (clean_ocr_text raw_text)) eqn:Hv;
    [|discriminate].
  intros H. inversion H; subst. exact Hv.
Qed.

Lemma strategies_sweeps (ts : list Z) : strategies (map Sweep ts) = [].
Proof. induction ts as [|t ts IH]; simpl; [reflexivity | exact IH]. Qed.

Lemma sweeps_no_strategy (ts : list Z) (e : event) :
  In e (map Sweep ts) -> exists t, e = Sweep t.
Proof.
  intros H. apply in_map_iff in H. destruct H as (t & <- & _). now exists t.
Qed.

Section OrchestratorFacts.

Variable E : Env.

Lemma method1_run (image_np : image E) (tr : list event) :
  method1 E image_np tr = (Ret (primary_candidate E image_np), tr ++ [Primary]).
Proof.
  unfold method1, primary_candidate, ocr_candidate.
  unfold try_except, bind, tick, lift, ret.
  destruct (image_to_string E image_np tess_config) as [raw_text|e];
    [|reflexivity].
  destruct (is_valid_meter_reading (clean_ocr_text raw_text)); reflexivity.
Qed.

Lemma method2_run (image_np : image E) (tr : list event) :
  method2 E image_np tr =
  (Ret (enhanced_candidate E image_np), tr ++ [Enhanced]).
Proof.
  unfold method2, enhanced_candidate, ocr_candidate.
  unfold try_except, bind, tick, lift, ret, rbind.
  destruct (enhanced_input E image_np) as [thresh|e]; [|reflexivity].
  destruct (image_to_string E thresh tess_config) as [raw_text|e];
    [|reflexivity].
  destruct (is_valid_meter_reading (clean_ocr_text raw_text)); reflexivity.
Qed.

Lemma method3_run (image_np : image E) (tr : list event) :
  method3 E image_np tr =
  (Ret (contour_text E image_np),
   tr ++ Contour :: contour_events E image_np).
Proof.
  unfold method3, bind, tick.
  rewrite extract_digits_from_contours_run, <- app_assoc. unfold ret.
  destruct (contour_text_cases E image_np) as [Hr|Hr].
  - rewrite Hr. reflexivity.
  - rewrite (placeholders_nonempty _ Hr), (placeholders_valid _ Hr).
    reflexivity.
Qed.

(** [extract_meter_reading] always returns, and what it returns and
    records is what the ladder says. *)
Lemma extract_meter_reading_run (image_bytes : buffer E) (tr : list event) :
  extract_meter_reading E image_bytes tr =
  (Ret (fst (ladder E image_bytes)), tr ++ snd (ladder E image_bytes)).
Proof.
  unfold extract_meter_reading, ladder, try_except, bind, lift.
  destruct (open_rgb E image_bytes) as [image_np|e].
  - rewrite method1_run.
    destruct (primary_candidate E image_np) as [text|]; [reflexivity|].
    rewrite method2_run, <- app_assoc.
    destruct (enhanced_candidate E image_np) as [text|]; [reflexivity|].
    rewrite method3_run, <- app_assoc. reflexivity.
  - simpl. unfold ret. now rewrite app_nil_r.
Qed.

Lemma ladder_valid (image_bytes : buffer E) :
  fst (ladder E image_bytes) = lit ""
  \/ is_valid_meter_reading (fst (ladder E image_bytes)) = true.
Proof.
  unfold ladder.
  destruct (open_rgb E image_bytes) as [image_np|e]; [|now left].
  destruct (primary_candidate E image_np) as [text|] eqn:H1.
  { right. exact (ocr_candidate_valid _ _ H1). }
  destruct (enhanced_candidate E image_np) as [text|] eqn:H2.
  { right. exact (ocr_candidate_valid _ _ H2). }
  destruct (contour_text_cases E image_np) as [Hr|Hr]; [now left|].
  right. now apply placeholders_valid.
Qed.

Lemma ladder_order (image_bytes : buffer E) :
  exists rest,
    [Primary; Enhanced; Contour] = strategies (snd (ladder E image_bytes)) ++ rest.
Proof.
  unfold ladder.
  destruct (open_rgb E image_bytes) as [image_np|e];
    [|eexists; reflexivity].
  destruct (primary_candidate E image_np) as [text|];
    [eexists; reflexivity|].
  destruct (enhanced_candidate E image_np) as [text|];
    [eexists; reflexivity|].
  destruct (contour_events_prefix E image_np) as (done & rest & -> & _).
  exists []. cbn [snd app strategies filter].
  fold (strategies (map Sweep done)). now rewrite strategies_sweeps.
Qed.

End OrchestratorFacts.

(** C1.  On every image buffer and from every trace,
    [extract_meter_reading] returns a string, and that string is empty or
    passes [is_valid_meter_reading]. *)
Theorem extract_meter_reading_returns_valid
    (E : Env) (image_bytes : buffer E) (tr : list event) :
  exists s tr',
    extract_meter_reading E image_bytes tr = (Ret s, tr')
    /\ (s = lit "" \/ is_valid_meter_reading s = true).
Proof.
  exists (fst (ladder E image_bytes)), (tr ++ snd (ladder E image_bytes)).
  split; [apply extract_meter_reading_run | apply ladder_valid].
Qed.

(** C3.  [extract_meter_reading] never raises.  An undecodable buffer gives
    the empty string; an error in the primary pass is followed by the
    enhanced pass, an error in the enhanced pass by the contour fallback; an
    error inside the contour analysis makes the fallback return the empty
    string; and when no strategy yields a valid candidate the result is the
    empty string. *)
Theorem extract_meter_reading_never_raises
    (E : Env) (image_bytes : buffer E) (tr : list event) :
  (exists s evs, extract_meter_reading E image_bytes tr = (Ret s, tr ++ evs))
  /\ (forall e, open_rgb E image_bytes = Raise e ->
        extract_meter_reading E image_bytes tr = (Ret (lit ""), tr))
  /\ (forall img e,
        open_rgb E image_bytes = Ret img ->
        image_to_string E img tess_config = Raise e ->
        exists s evs,
          extract_meter_reading E image_bytes tr =
          (Ret s, tr ++ Primary :: Enhanced :: evs))
  /\ (forall img e,
        open_rgb E image_bytes = Ret img ->
        primary_candidate E img = None ->
        (thresh <- enhanced_input E img ;;
         image_to_string E thresh tess_config)%res = Raise e ->
        exists s evs,
          extract_meter_reading E image_bytes tr =
          (Ret s, tr ++ Primary :: Enhanced :: Contour :: evs))
  /\ (forall img e tr0,
        (contour_input E img = Raise e
         \/ exists enhanced t,
              contour_input E img = Ret enhanced /\ In t thresholds
              /\ digit_regions_at E enhanced t = Raise e) ->
        exists tr1,
          extract_digits_from_contours E img tr0 = (Ret (lit ""), tr1))
  /\ (forall img,
        open_rgb E image_bytes = Ret img ->
        primary_candidate E img = None ->
        enhanced_candidate E img = None ->
        (contour_text E img = lit ""
         \/ is_valid_meter_reading (contour_text E img) = false) ->
        exists evs,
          extract_meter_reading E image_bytes tr = (Ret (lit ""), tr ++ evs)).
Proof.
  rewrite extract_meter_reading_run.
  split; [now eexists; eexists|].
  split.
  { intros e He. unfold ladder. rewrite He. simpl. now rewrite app_nil_r. }
  split.
  { intros img e Himg Hraise. unfold ladder. rewrite Himg.
    unfold primary_candidate. rewrite Hraise. cbn [ocr_candidate].
    destruct (enhanced_candidate E img); eexists; eexists; reflexivity. }
  split.
  { intros img e Himg Hp Hraise. unfold ladder. rewrite Himg, Hp.
    unfold enhanced_candidate. rewrite Hraise. cbn [ocr_candidate].
    eexists; eexists; reflexivity. }
  split.
  { intros img e tr0 Hraise.
    unfold extract_digits_from_contours, try_except, bind, lift.
    destruct Hraise as [->|(enhanced & t & -> & Ht & Hraise)].
    - now exists tr0.
    - destruct (sweep_raises E enhanced thresholds t e Ht Hraise (lit "", 0) tr0)
        as (e' & tr1 & ->).
      now exists tr1. }
  intros img Himg Hp He Hc. unfold ladder. rewrite Himg, Hp, He.
  destruct (contour_text_cases E img) as [Hr|Hr].
  - rewrite Hr. eexists; reflexivity.
  - destruct Hc as [Hc|Hc]; [rewrite Hc; eexists; reflexivity|].
    rewrite (placeholders_valid _ Hr) in Hc. discriminate.
Qed.

Lemma extract_meter_reading_never_raises_witness :
  (exists s evs,
     extract_meter_reading Toy.env (Some Toy.boxes_photo) [] =
     (Ret s, [] ++ Primary :: Enhanced :: evs))
  /\ (exists evs,
        extract_meter_reading Toy.env (Some Toy.blank_photo) [] =
        (Ret (lit ""), [] ++ evs))
  /\ extract_meter_reading Toy.env None [] = (Ret (lit ""), []).
Proof.
  split; [|split].
  - apply (proj1 (proj2 (proj2
             (extract_meter_reading_never_raises
                Toy.env (Some Toy.boxes_photo) [])))
             Toy.boxes_photo Toy.tesseract_down); reflexivity.
  - apply (proj2 (proj2 (proj2 (proj2 (proj2
             (extract_meter_reading_never_raises
                Toy.env (Some Toy.blank_photo) [])))))
             Toy.blank_photo); try reflexivity.
    left. reflexivity.
  - apply (proj1 (proj2
             (extract_meter_reading_never_raises Toy.env None []))
             (Exception "cannot identify image file")).
    reflexivity.
Defined.

(** C4.  In every run the strategies entered are a prefix of Primary,
    Enhanced, Contour, so each is entered at most once and in this order.  A
    primary text that passes the validator once normalised is returned with
    only the primary strategy entered; a valid enhanced text keeps the
    contour fallback from being entered. *)
Theorem extract_meter_reading_strategy_order
    (E : Env) (image_bytes : buffer E) (tr : list event) :
  (exists r evs,
     extract_meter_reading E image_bytes tr = (r, tr ++ evs)
     /\ NoDup (strategies evs)
     /\ exists rest, [Primary; Enhanced; Contour] = strategies evs ++ rest)
  /\ (forall img raw_text,
        open_rgb E image_bytes = Ret img ->
        image_to_string E img tess_config = Ret raw_text ->
        is_valid_meter_reading (clean_ocr_text raw_text) = true ->
        extract_meter_reading E image_bytes tr =
        (Ret (clean_ocr_text raw_text), tr ++ [Primary]))
  /\ (forall img thresh raw_text,
        open_rgb E image_bytes = Ret img ->
        enhanced_input E img = Ret thresh ->
        image_to_string E thresh tess_config = Ret raw_text ->
        is_valid_meter_reading (clean_ocr_text raw_text) = true ->
        exists s evs,
          extract_meter_reading E image_bytes tr = (Ret s, tr ++ evs)
          /\ ~ In Contour evs
          /\ (primary_candidate E img = None ->
              s = clean_ocr_text raw_text /\ evs = [Primary; Enhanced])).
Proof.
  rewrite extract_meter_reading_run.
  split.
  { exists (Ret (fst (ladder E image_bytes))), (snd (ladder E image_bytes)).
    split; [reflexivity|].
    destruct (ladder_order E image_bytes) as (rest & Hrest).
    split; [|now exists rest].
    assert (Hnd : NoDup (strategies (snd (ladder E image_bytes)) ++ rest)).
    { rewrite <- Hrest. repeat constructor; simpl; intuition discriminate. }
    exact (NoDup_app_remove_r _ _ Hnd). }
  split.
  { intros img raw_text Himg Hraw Hv. unfold ladder, primary_candidate.
    rewrite Himg, Hraw. cbn [ocr_candidate]. rewrite Hv. reflexivity. }
  intros img thresh raw_text Himg Hth Hraw Hv.
  assert (He : enhanced_candidate E img = Some (clean_ocr_text raw_text)).
  { unfold enhanced_candidate. rewrite Hth. cbn [rbind]. rewrite Hraw.
    cbn [ocr_candidate]. now rewrite Hv. }
  unfold ladder. rewrite Himg, He.
  destruct (primary_candidate E img) as [text|].
  - exists text, [Primary]. split; [reflexivity|]. split; [|discriminate].
    simpl. intuition discriminate.
  - exists (clean_ocr_text raw_text), [Primary; Enhanced].
    split; [reflexivity|]. split; [|now split].
    simpl. intuition discriminate.
Qed.

Lemma extract_meter_reading_strategy_order_witness :
  extract_meter_reading Toy.env (Some Toy.clear_photo) [] =
    (Ret (lit "120341"), [Primary])
  /\ exists s evs,
       extract_meter_reading Toy.env (Some Toy.dim_photo) [] = (Ret s, [] ++ evs)
       /\ ~ In Contour evs
       /\ (primary_candidate Toy.env Toy.dim_photo = None ->
           s = clean_ocr_text (lit "00 482") /\ evs = [Primary; Enhanced]).
Proof.
  split.
  - apply (proj1 (proj2
             (extract_meter_reading_strategy_order
                Toy.env (Some Toy.clear_photo) []))
             Toy.clear_photo (lit "12O34I" ++ [LF])); reflexivity.
  - apply (proj2 (proj2
             (extract_meter_reading_strategy_order
                Toy.env (Some Toy.dim_photo) []))
             Toy.dim_photo (Toy.with_level Toy.dim_photo 150) (lit "00 482"));
      reflexivity.
Defined.

(** C6.  What [extract_digits_from_contours] returns is the empty string or
    one of [0123], [01234], [012345], [0123456], the prefix of [0123456] of
    length 4 to 7; each of the four passes the validator; and when the two
    OCR passes yield nothing and the fallback returns a non-empty string (as
    it does once a threshold is usable and detection raises nowhere),
    [extract_meter_reading] returns that placeholder. *)
Theorem contour_fallback_placeholder (E : Env) :
  (forall img tr,
     exists r tr',
       extract_digits_from_contours E img tr = (Ret r, tr')
       /\ (r = lit "" \/ In r placeholders))
  /\ (forall r, In r placeholders <->
                exists n, 4 <= n <= 7 /\ r = firstn n (lit "0123456"))
  /\ (forall r, In r placeholders -> is_valid_meter_reading r = true)
  /\ (forall image_bytes img tr,
        open_rgb E image_bytes = Ret img ->
        primary_candidate E img = None ->
        enhanced_candidate E img = None ->
        contour_text E img <> lit "" ->
        In (contour_text E img) placeholders
        /\ exists tr',
             extract_meter_reading E image_bytes tr =
             (Ret (contour_text E img), tr'))
  /\ (forall image_bytes img enhanced tr t,
        open_rgb E image_bytes = Ret img ->
        primary_candidate E img = None ->
        enhanced_candidate E img = None ->
        contour_input E img = Ret enhanced ->
        (forall t', In t' thresholds ->
                    exists regions, digit_regions_at E enhanced t' = Ret regions) ->
        In t thresholds -> usable E enhanced t = true ->
        exists r tr',
          extract_meter_reading E image_bytes tr = (Ret r, tr')
          /\ In r placeholders).
Proof.
  split.
  { intros img tr. rewrite extract_digits_from_contours_run.
    eexists; eexists. split; [reflexivity | apply contour_text_cases]. }
  split.
  { intros r. split.
    - intros H. unfold placeholders in H. simpl in H.
      destruct H as [<-|[<-|[<-|[<-|[]]]]];
        [exists 4 | exists 5 | exists 6 | exists 7]; split; (lia || reflexivity).
    - intros (n & Hn & ->).
      assert (H : n = 4 \/ n = 5 \/ n = 6 \/ n = 7) by lia.
      destruct H as [-> | [-> | [-> | ->]]]; vm_compute; tauto. }
  split; [exact placeholders_valid|].
  assert (Hreach : forall image_bytes img tr,
            open_rgb E image_bytes = Ret img ->
            primary_candidate E img = None ->
            enhanced_candidate E img = None ->
            exists tr', extract_meter_reading E image_bytes tr =
                        (Ret (contour_text E img), tr')).
  { intros image_bytes img tr Himg Hp He.
    rewrite extract_meter_reading_run. unfold ladder. rewrite Himg, Hp, He.
    eexists; reflexivity. }
  split.
  { intros image_bytes img tr Himg Hp He Hne. split.
    - destruct (contour_text_cases E img); [contradiction | assumption].
    - now apply Hreach. }
  intros image_bytes img enhanced tr t Himg Hp He Hin Hok Ht Hu.
  destruct (Hreach image_bytes img tr Himg Hp He) as (tr' & Hrun).
  exists (contour_text E img), tr'. split; [exact Hrun|].
  destruct (contour_selects E enhanced img Hin Hok)
    as [_ [[_ Hnone]|(t0 & _ & Hu0 & Hr & _)]].
  - rewrite (Hnone t Ht) in Hu. discriminate.
  - rewrite Hr. apply placeholder_values. now apply usable_spec.
Qed.

Lemma contour_fallback_placeholder_witness :
  exists r tr',
    extract_meter_reading Toy.env (Some Toy.boxes_photo) [] = (Ret r, tr')
    /\ In r placeholders.
Proof.
  apply (proj2 (proj2 (proj2 (proj2 (contour_fallback_placeholder Toy.env))))
           (Some Toy.boxes_photo) Toy.boxes_photo Toy.boxes_photo [] 150%Z);
    try reflexivity.
  - intros t Ht. unfold thresholds in Ht. simpl in Ht.
    repeat (destruct Ht as [<-|Ht]; [eexists; vm_compute; reflexivity|]).
    destruct Ht.
  - vm_compute. tauto.
Defined.

(** * Further properties *)

(** ** The normaliser, as a whole *)

Lemma confusable_subst_fix (c : N) :
  in_chars (lit "OI|[]") c = false -> confusable_subst c = c.
Proof.
  unfold confusable_subst.
  change (in_chars (lit "OI|[]") c)
    with ((c =? chr "O")%N || in_chars (lit "I|[]") c).
  intros H. apply orb_false_iff in H. destruct H as [-> ->]. reflexivity.
Qed.

Lemma decimal_not_confusable (c : N) :
  re_d c = true -> in_chars (lit "OI|[]") c = false.
Proof.
  intros Hc. unfold in_chars. cbn [lit list_ascii_of_string map existsb].
  rewrite !(decimal_not_named c) by (assumption || (vm_compute; tauto)).
  reflexivity.
Qed.

Lemma space_not_named (c : N) :
  re_s c = true -> in_chars (lit ".-()O|I[]") c = false.
Proof.
  intros Hc. unfold in_chars. cbn [lit list_ascii_of_string map existsb].
  repeat match goal with
         | |- context [(c =? ?k)%N] =>
             destruct (N.eqb_spec c k) as [Hk|_];
             [rewrite Hk in Hc; vm_compute in Hc; discriminate|]
         end.
  reflexivity.
Qed.

Lemma named_split (c : N) :
  in_chars (lit ".-()O|I[]") c
  = punct_class c || in_chars (lit "OI|[]") c.
Proof.
  unfold punct_class, in_chars. cbn [lit list_ascii_of_string map existsb].
  repeat match goal with
         | |- context [(c =? ?k)%N] => destruct (c =? k)%N
         end; reflexivity.
Qed.

Lemma normalise_chars_flat (s : pystr) :
  normalise_chars s = flat_map normalise_char s.
Proof.
  unfold normalise_chars. rewrite replace_chain.
  rewrite (map_ext _ _ replace_chain_subst).
  change (lit "") with (@nil N). rewrite replace_delete.
  unfold re_sub_class.
  induction s as [|c s IH]; [reflexivity|].
  cbn [filter flat_map]. unfold normalise_char at 1.
  rewrite negb_involutive.
  destruct (kept_class c); [|exact IH].
  cbn [map filter].
  destruct (punct_class (confusable_subst c)); [exact IH|].
  cbn [negb filter orb].
  destruct (confusable_subst c =? chr " ")%N; [exact IH|].
  cbn [negb app]. now rewrite IH.
Qed.

Lemma clean_ocr_text_factor (s : pystr) :
  clean_ocr_text s =
  re_sub_trailing non_digit (re_sub_leading non_digit (normalise_chars s)).
Proof.
  unfold clean_ocr_text. destruct s as [|c s]; reflexivity.
Qed.

(** A digit or confusable glyph becomes one decimal digit. *)
Lemma normalise_char_digit (c : N) :
  digit_or_confusable c = true ->
  normalise_char c = [confusable_subst c] /\ re_d (confusable_subst c) = true.
Proof.
  intros Hc.
  assert (Hd : re_d (confusable_subst c) = true).
  { apply confusable_subst_decimal. unfold digit_or_confusable in Hc.
    apply orb_true_iff in Hc. destruct Hc as [Hc|Hc]; [now left|right].
    unfold in_chars in Hc. apply existsb_exists in Hc.
    destruct Hc as (k & Hk & Heq). apply N.eqb_eq in Heq. now subst. }
  split; [|exact Hd].
  unfold normalise_char.
  assert (Hk : kept_class c = true).
  { unfold kept_class. rewrite named_split.
    unfold digit_or_confusable in Hc. apply orb_true_iff in Hc.
    destruct Hc as [-> | ->]; [reflexivity|].
    now rewrite !orb_true_r. }
  rewrite Hk, (decimal_not_punct _ Hd).
  rewrite (decimal_not_named _ (chr " ") Hd) by (vm_compute; tauto).
  reflexivity.
Qed.

(** Any other character disappears, unless it is whitespace other than the
    space, which stays as it is. *)
Lemma normalise_char_other (c : N) :
  digit_or_confusable c = false ->
  (normalise_char c = []
   /\ (re_s c = true -> c = chr " "))
  \/ (normalise_char c = [c] /\ re_s c = true /\ c <> chr " "
      /\ re_d c = false).
Proof.
  intros Hc. unfold digit_or_confusable in Hc. apply orb_false_iff in Hc.
  destruct Hc as [Hd Hconf].
  unfold normalise_char, kept_class.
  rewrite Hd, (confusable_subst_fix c Hconf), named_split, Hconf.
  cbn [orb]. rewrite orb_false_r.
  destruct (re_s c) eqn:Hs; cbn [orb].
  - pose proof (space_not_named c Hs) as Hn. rewrite named_split in Hn.
    apply orb_false_iff in Hn. destruct Hn as [-> _]. cbn [orb].
    destruct (N.eqb_spec c (chr " ")) as [Heq|Hne].
    + left. now split.
    + right. repeat split; assumption.
  - left. split; [|discriminate].
    destruct (punct_class c); reflexivity.
Qed.

Lemma normalise_char_cases (c : N) :
  (normalise_char c = [confusable_subst c]
   /\ re_d (confusable_subst c) = true
   /\ digit_or_confusable c = true)
  \/ normalise_char c = []
  \/ (normalise_char c = [c] /\ re_s c = true /\ c <> chr " "
      /\ re_d c = false).
Proof.
  destruct (digit_or_confusable c) eqn:Hc.
  - left. destruct (normalise_char_digit c Hc). now repeat split.
  - right. destruct (normalise_char_other c Hc) as [[H _]|H];
      [now left | now right].
Qed.

(** ** Stripping *)

Lemma dropwhile_all (p : N -> bool) (s : pystr) :
  Forall (fun c => p c = true) s -> dropwhile p s = [].
Proof.
  induction 1 as [|c s Hc _ IH]; simpl; [reflexivity|]. now rewrite Hc.
Qed.

Lemma dropwhile_app_all (p : N -> bool) (a s : pystr) :
  Forall (fun c => p c = true) a -> dropwhile p (a ++ s) = dropwhile p s.
Proof.
  induction 1 as [|c a Hc _ IH]; simpl; [reflexivity|]. now rewrite Hc.
Qed.

Lemma dropwhile_head (p : N -> bool) (s : pystr) (c : N) :
  hd_error (dropwhile p s) = Some c -> p c = false.
Proof.
  induction s as [|a s IH]; simpl; [discriminate|].
  destruct (p a) eqn:Ha; [exact IH|].
  simpl. intros H. inversion H; subst. exact Ha.
Qed.

Lemma dropwhile_stop (p : N -> bool) (s : pystr) :
  (forall c, hd_error s = Some c -> p c = false) -> dropwhile p s = s.
Proof.
  destruct s as [|a s]; simpl; [reflexivity|].
  intros H. now rewrite (H a eq_refl).
Qed.

Lemma dropwhile_length (p : N -> bool) (s : pystr) :
  List.length (dropwhile p s) <= List.length s.
Proof.
  induction s as [|a s IH]; simpl; [lia|].
  destruct (p a); simpl; lia.
Qed.

Lemma dropwhile_app_stop (p : N -> bool) (s : pystr) (h : N) (t : pystr) :
  p h = false -> dropwhile p (s ++ h :: t) = dropwhile p s ++ h :: t.
Proof.
  intros Hh. induction s as [|a s IH]; simpl.
  - now rewrite Hh.
  - destruct (p a); [exact IH | reflexivity].
Qed.

Lemma trailing_app_all (p : N -> bool) (s b : pystr) :
  Forall (fun c => p c = true) b ->
  re_sub_trailing p (s ++ b) = re_sub_trailing p s.
Proof.
  intros Hb. unfold re_sub_trailing. rewrite rev_app_distr.
  rewrite dropwhile_app_all by (now apply Forall_rev). reflexivity.
Qed.

Lemma trailing_cons_stop (p : N -> bool) (h : N) (t : pystr) :
  p h = false -> exists t', re_sub_trailing p (h :: t) = h :: t'.
Proof.
  intros Hh. unfold re_sub_trailing. cbn [rev].
  rewrite dropwhile_app_stop by assumption.
  rewrite rev_app_distr. simpl. now eexists.
Qed.

Lemma strip_margins (p : N -> bool) (a s b : pystr) :
  Forall (fun c => p c = true) a -> Forall (fun c => p c = true) b ->
  re_sub_trailing p (re_sub_leading p (a ++ s ++ b))
  = re_sub_trailing p (re_sub_leading p s).
Proof.
  intros Ha Hb. unfold re_sub_leading.
  rewrite dropwhile_app_all by assumption.
  induction s as [|c s IH].
  - simpl. now rewrite dropwhile_all.
  - cbn [app dropwhile]. destruct (p c); [exact IH|].
    change (c :: s ++ b) with ((c :: s) ++ b).
    now apply trailing_app_all.
Qed.

Lemma strip_all_decimal (t : pystr) :
  all_decimal t ->
  re_sub_trailing non_digit (re_sub_leading non_digit t) = t.
Proof.
  intros Ht. unfold re_sub_trailing, re_sub_leading.
  rewrite (dropwhile_all_decimal t) by exact Ht.
  rewrite (dropwhile_all_decimal (rev t)) by (apply Forall_rev; exact Ht).
  apply rev_involutive.
Qed.

Lemma noise_normalised (s : pystr) :
  noise s -> Forall (fun c => non_digit c = true) (normalise_chars s).
Proof.
  intros Hs. rewrite normalise_chars_flat.
  induction Hs as [|c s Hc _ IH]; [constructor|].
  cbn [flat_map]. apply Forall_app. split; [|exact IH].
  destruct (normalise_char_other c Hc) as [[-> _]|(-> & _ & _ & Hd)].
  - constructor.
  - constructor; [|constructor]. unfold non_digit. now rewrite Hd.
Qed.

Lemma normalise_chars_app (a b : pystr) :
  normalise_chars (a ++ b) = normalise_chars a ++ normalise_chars b.
Proof. rewrite !normalise_chars_flat. apply flat_map_app. Qed.

Lemma clean_ocr_text_In (s : pystr) (c : N) :
  In c (clean_ocr_text s) ->
  exists a, In a s /\ In c (normalise_char a).
Proof.
  rewrite clean_ocr_text_factor. unfold re_sub_trailing, re_sub_leading.
  intros H. apply in_rev in H. apply dropwhile_incl in H.
  apply in_rev in H. apply dropwhile_incl in H.
  rewrite normalise_chars_flat in H. apply in_flat_map in H. exact H.
Qed.

Lemma clean_ocr_text_head (s : pystr) (c : N) :
  hd_error (clean_ocr_text s) = Some c -> re_d c = true.
Proof.
  rewrite clean_ocr_text_factor. unfold re_sub_leading.
  destruct (dropwhile non_digit (normalise_chars s)) as [|h t] eqn:HL;
    [discriminate|].
  assert (Hh : non_digit h = false).
  { apply (dropwhile_head non_digit (normalise_chars s)). now rewrite HL. }
  destruct (trailing_cons_stop non_digit h t Hh) as (t' & ->).
  simpl. intros H. inversion H; subst.
  unfold non_digit in Hh. now apply negb_false_iff in Hh.
Qed.

Lemma clean_ocr_text_last (s : pystr) (c : N) :
  hd_error (rev (clean_ocr_text s)) = Some c -> re_d c = true.
Proof.
  rewrite clean_ocr_text_factor. unfold re_sub_trailing.
  rewrite rev_involutive. intros H. apply dropwhile_head in H.
  unfold non_digit in H. now apply negb_false_iff in H.
Qed.

(** On raw text whose only whitespace is the space, [clean_ocr_text] keeps
    the digits and the confusable glyphs, in their order, each glyph turned
    into its digit, and nothing else: the result is made of decimal digits. *)
Theorem clean_ocr_text_single_line (s : pystr) :
  single_line s ->
  clean_ocr_text s = map confusable_subst (filter digit_or_confusable s)
  /\ all_decimal (clean_ocr_text s).
Proof.
  intros Hs.
  assert (Hflat : normalise_chars s
                  = map confusable_subst (filter digit_or_confusable s)).
  { rewrite normalise_chars_flat.
    induction Hs as [|c s Hc _ IH]; [reflexivity|].
    cbn [flat_map filter].
    destruct (digit_or_confusable c) eqn:Hdc.
    - destruct (normalise_char_digit c Hdc) as [-> _].
      cbn [map app]. now rewrite IH.
    - destruct (normalise_char_other c Hdc) as [[-> _]|(_ & Hsp & Hne & _)].
      + exact IH.
      + exfalso. apply Hne. now apply Hc. }
  assert (Hdec : all_decimal (map confusable_subst (filter digit_or_confusable s))).
  { unfold all_decimal. rewrite Forall_map, Forall_forall.
    intros c Hc. apply filter_In in Hc. destruct Hc as [_ Hc].
    now destruct (normalise_char_digit c Hc). }
  rewrite clean_ocr_text_factor, Hflat, strip_all_decimal by exact Hdec.
  split; [reflexivity | exact Hdec].
Qed.

Lemma clean_ocr_text_single_line_witness :
  clean_ocr_text (lit " kWh: [2]O-4.7 I ")
  = map confusable_subst (filter digit_or_confusable (lit " kWh: [2]O-4.7 I "))
  /\ all_decimal (clean_ocr_text (lit " kWh: [2]O-4.7 I ")).
Proof.
  apply clean_ocr_text_single_line.
  unfold single_line. rewrite Forall_forall. intros c Hc.
  vm_compute in Hc.
  repeat (destruct Hc as [<-|Hc]; [vm_compute; first [discriminate | reflexivity]|]).
  destruct Hc.
Defined.

Lemma clean_ocr_text_char_cases (s : pystr) (c : N) :
  In c (clean_ocr_text s) ->
  re_d c = true
  \/ (re_s c = true /\ c <> chr " " /\ re_d c = false /\ In c s).
Proof.
  intros H. apply clean_ocr_text_In in H. destruct H as (a & Ha & Hc).
  destruct (normalise_char_cases a)
    as [(Heq & Hd & _)|[Heq|(Heq & Hs & Hne & Hd)]];
    rewrite Heq in Hc; simpl in Hc.
  - destruct Hc as [<-|[]]. now left.
  - destruct Hc.
  - destruct Hc as [<-|[]]. right. now repeat split.
Qed.

(** Every character of the output of [clean_ocr_text] is a decimal digit,
    or a whitespace character of the input other than the space; no letter,
    punctuation mark or space is ever left. *)
Theorem clean_ocr_text_output_chars (s : pystr) (c : N) :
  In c (clean_ocr_text s) ->
  re_d c = true
  \/ (re_s c = true /\ c <> chr " " /\ re_d c = false /\ In c s).
Proof.
  intros Hc. destruct (clean_ocr_text_char_cases s c Hc) as [Hd|Hw].
  - left. exact Hd.
  - right. exact Hw.
Qed.

Lemma clean_ocr_text_output_chars_witness :
  re_d LF = true
  \/ (re_s LF = true /\ LF <> chr " " /\ re_d LF = false
      /\ In LF (lit "a1" ++ [LF] ++ lit "2 ")).
Proof.
  apply (clean_ocr_text_output_chars (lit "a1" ++ [LF] ++ lit "2 ") LF).
  vm_compute. tauto.
Defined.

(** A non-empty output of [clean_ocr_text] begins with a decimal digit and
    ends with one. *)
Theorem clean_ocr_text_ends (s : pystr) :
  clean_ocr_text s = lit ""
  \/ exists first last,
       hd_error (clean_ocr_text s) = Some first /\ re_d first = true
       /\ hd_error (rev (clean_ocr_text s)) = Some last /\ re_d last = true.
Proof.
  destruct (clean_ocr_text s) as [|h t] eqn:Hr; [now left|right].
  pose proof (clean_ocr_text_head s h) as Hh. rewrite Hr in Hh.
  pose proof (clean_ocr_text_last s) as Hl. rewrite Hr in Hl.
  destruct (rev (h :: t)) as [|l t'] eqn:Hrev.
  - apply (f_equal (@List.length N)) in Hrev. rewrite length_rev in Hrev.
    discriminate.
  - exists h, l. repeat split; [now apply Hh | now apply Hl].
Qed.

(** [clean_ocr_text] is idempotent on every string. *)
Theorem clean_ocr_text_idempotent (s : pystr) :
  clean_ocr_text (clean_ocr_text s) = clean_ocr_text s.
Proof.
  set (r := clean_ocr_text s).
  assert (Hfix : forall l : pystr,
             (forall c, In c l -> In c r) -> flat_map normalise_char l = l).
  { induction l as [|c l IH]; intros Hl; [reflexivity|].
    cbn [flat_map]. rewrite IH by (intros x Hx; apply Hl; now right).
    assert (Hc : In c r) by (apply Hl; now left).
    apply clean_ocr_text_char_cases in Hc.
    destruct Hc as [Hd|(Hs & Hne & Hd & _)].
    - assert (Hdc : digit_or_confusable c = true)
        by (unfold digit_or_confusable; now rewrite Hd).
      destruct (normalise_char_digit c Hdc) as [-> _].
      now rewrite (confusable_subst_fix c (decimal_not_confusable c Hd)).
    - assert (Hdc : digit_or_confusable c = false).
      { unfold digit_or_confusable. rewrite Hd. cbn [orb].
        pose proof (space_not_named c Hs) as Hn. rewrite named_split in Hn.
        now apply orb_false_iff in Hn. }
      destruct (normalise_char_other c Hdc) as [[_ Hsp]|(-> & _)];
        [exfalso; now apply Hne, Hsp | reflexivity]. }
  rewrite (clean_ocr_text_factor r), normalise_chars_flat.
  rewrite Hfix by auto.
  unfold re_sub_trailing, re_sub_leading.
  rewrite (dropwhile_stop non_digit r).
  2:{ intros c Hc. apply clean_ocr_text_head in Hc. unfold non_digit.
      now rewrite Hc. }
  rewrite (dropwhile_stop non_digit (rev r)).
  2:{ intros c Hc. apply clean_ocr_text_last in Hc. unfold non_digit.
      now rewrite Hc. }
  apply rev_involutive.
Qed.

(** Noise around the text (characters that are neither digits nor
    confusable glyphs, such as the line feed and form feed the OCR engine
    appends, or unit letters) does not change what [clean_ocr_text]
    returns. *)
Theorem clean_ocr_text_ignores_margins (before s after : pystr) :
  noise before -> noise after ->
  clean_ocr_text (before ++ s ++ after) = clean_ocr_text s.
Proof.
  intros Hb Ha. rewrite !clean_ocr_text_factor, !normalise_chars_app.
  apply strip_margins; now apply noise_normalised.
Qed.

Lemma clean_ocr_text_ignores_margins_witness :
  clean_ocr_text (lit "No. " ++ lit "12O34I" ++ (lit " kWh" ++ [LF; 12%N]))
  = clean_ocr_text (lit "12O34I").
Proof.
  apply clean_ocr_text_ignores_margins;
    unfold noise; repeat constructor.
Defined.

(** The output of [clean_ocr_text] is never longer than its input. *)
Theorem clean_ocr_text_length (s : pystr) :
  len (clean_ocr_text s) <= len s.
Proof.
  rewrite clean_ocr_text_factor. unfold len, re_sub_trailing, re_sub_leading.
  rewrite length_rev.
  eapply Nat.le_trans; [apply dropwhile_length|]. rewrite length_rev.
  eapply Nat.le_trans; [apply dropwhile_length|].
  rewrite normalise_chars_flat.
  induction s as [|c s IH]; simpl; [lia|].
  rewrite length_app.
  destruct (normalise_char_cases c) as [(-> & _)|[->|(-> & _)]]; simpl; lia.
Qed.

(** ** Digits are not whitespace *)

Lemma in_ranges_enumerate (table : list (N * N)) (c : N) :
  in_ranges table c = true -> In c (enumerate table).
Proof.
  unfold in_ranges, enumerate. intros H.
  apply existsb_exists in H. destruct H as (r & Hr & Hc).
  apply andb_true_iff in Hc. destruct Hc as [Hlo Hhi].
  apply N.leb_le in Hlo, Hhi.
  apply in_flat_map. exists r. split; [exact Hr|].
  apply in_map_iff. exists (N.to_nat c). split; [apply N2Nat.id|].
  apply in_seq. lia.
Qed.

Lemma space_not_digit (c : N) : re_s c = true -> is_digit_char c = false.
Proof.
  intros Hc. apply in_ranges_enumerate in Hc.
  assert (Hall : forallb (fun x => negb (is_digit_char x)) (enumerate space_table)
                 = true) by (vm_compute; reflexivity).
  rewrite forallb_forall in Hall. apply Hall in Hc.
  now apply negb_true_iff in Hc.
Qed.

Lemma py_strip_no_space (s : pystr) :
  Forall (fun c => re_s c = false) s -> py_strip s = s.
Proof.
  intros Hs. unfold py_strip.
  rewrite (dropwhile_stop re_s s).
  2:{ intros c Hc. destruct Hs as [|a s Ha _]; [discriminate|].
      simpl in Hc. inversion Hc; subst. exact Ha. }
  apply Forall_rev in Hs.
  rewrite (dropwhile_stop re_s (rev s)).
  2:{ intros c Hc. destruct Hs as [|a l Ha _]; [discriminate|].
      simpl in Hc. inversion Hc; subst. exact Ha. }
  apply rev_involutive.
Qed.

Lemma valid_no_space (s : pystr) :
  is_valid_meter_reading s = true -> Forall (fun c => re_s c = false) s.
Proof.
  intros Hv. apply is_valid_meter_reading_rules in Hv.
  destruct Hv as (_ & Hd & _).
  eapply Forall_impl; [|exact Hd]. simpl. intros c Hc.
  destruct (re_s c) eqn:Hs; [|reflexivity].
  apply space_not_digit in Hs. congruence.
Qed.

(** A normalised text that the validator accepts is made of decimal
    digits. *)
Lemma accepted_decimal (raw_text : pystr) :
  is_valid_meter_reading (clean_ocr_text raw_text) = true ->
  all_decimal (clean_ocr_text raw_text).
Proof.
  intros Hv. pose proof (valid_no_space _ Hv) as Hns.
  unfold all_decimal. rewrite Forall_forall in *. intros c Hc.
  pose proof (Hns c Hc) as Hs.
  apply clean_ocr_text_char_cases in Hc.
  destruct Hc as [Hd|(Hs' & _)]; [exact Hd | congruence].
Qed.

Lemma placeholders_decimal (r : pystr) : In r placeholders -> all_decimal r.
Proof.
  intros H. unfold placeholders in H. simpl in H.
  repeat (destruct H as [<-|H]; [repeat constructor|]). destruct H.
Qed.

Lemma accepted_shape (raw_text : pystr) :
  is_valid_meter_reading (clean_ocr_text raw_text) = true <->
  all_decimal (clean_ocr_text raw_text)
  /\ 4 <= len (clean_ocr_text raw_text) <= 7
  /\ two_distinct (clean_ocr_text raw_text).
Proof.
  split.
  - intros Hv. split; [now apply accepted_decimal|].
    apply is_valid_meter_reading_rules in Hv.
    destruct Hv as (_ & _ & Hlen & Hset).
    split; [exact Hlen | now apply set_two_distinct].
  - intros (Hd & Hlen & Htwo). apply is_valid_meter_reading_rules.
    split; [|split; [|split]].
    + destruct (clean_ocr_text raw_text); [simpl in Hlen; lia | discriminate].
    + eapply Forall_impl; [|exact Hd]. simpl. intros c Hc.
      unfold is_digit_char. now rewrite Hc.
    + exact Hlen.
    + now apply set_two_distinct.
Qed.

(** The normaliser followed by the validator: a raw text is accepted exactly
    when its normal form is 4 to 7 decimal digits, two of them distinct;
    superscripts and the other characters [str.isdigit] counts as digits
    cannot come out of the normaliser. *)
Theorem normalised_accepted_decimal (raw_text : pystr) :
  is_valid_meter_reading (clean_ocr_text raw_text) = true <->
  all_decimal (clean_ocr_text raw_text)
  /\ 4 <= len (clean_ocr_text raw_text) <= 7
  /\ two_distinct (clean_ocr_text raw_text).
Proof.
  destruct (accepted_shape raw_text) as [Hto Hfrom].
  split; [exact Hto | exact Hfrom].
Qed.

(** What [extract_meter_reading] returns is the empty string or 4 to 7
    decimal digits, two of them distinct. *)
Theorem extract_meter_reading_decimal
    (E : Env) (image_bytes : buffer E) (tr : list event) :
  exists s tr',
    extract_meter_reading E image_bytes tr = (Ret s, tr')
    /\ (s = lit ""
        \/ (all_decimal s /\ 4 <= len s <= 7 /\ two_distinct s)).
Proof.
  rewrite extract_meter_reading_run. eexists; eexists.
  split; [reflexivity|].
  assert (Hocr : forall raw text,
            ocr_candidate raw = Some text ->
            all_decimal text /\ 4 <= len text <= 7 /\ two_distinct text).
  { intros raw text H. unfold ocr_candidate in H.
    destruct raw as [raw_text|e]; [|discriminate].
    destruct (is_valid_meter_reading (clean_ocr_text raw_text)) eqn:Hv;
      [|discriminate].
    inversion H; subst. now apply accepted_shape. }
  unfold ladder.
  destruct (open_rgb E image_bytes) as [image_np|e]; [|now left].
  destruct (primary_candidate E image_np) as [text|] eqn:H1.
  { right. exact (Hocr _ _ H1). }
  destruct (enhanced_candidate E image_np) as [text|] eqn:H2.
  { right. exact (Hocr _ _ H2). }
  destruct (contour_text_cases E image_np) as [Hr|Hr]; [now left|].
  right. cbn [fst]. split; [now apply placeholders_decimal|].
  pose proof (placeholders_valid _ Hr) as Hv.
  apply is_valid_meter_reading_rules in Hv.
  destruct Hv as (_ & _ & Hlen & Hset).
  split; [exact Hlen | now apply set_two_distinct].
Qed.

(** The validator test on the fallback's result (line 181) never rejects:
    method 3 returns exactly what [extract_digits_from_contours] returned,
    which is empty or valid. *)
Theorem contour_result_never_rejected
    (E : Env) (image_np : image E) (tr : list event) :
  exists r tr',
    extract_digits_from_contours E image_np (tr ++ [Contour]) = (Ret r, tr')
    /\ method3 E image_np tr = (Ret r, tr')
    /\ (r = lit "" \/ is_valid_meter_reading r = true).
Proof.
  rewrite method3_run, extract_digits_from_contours_run, <- app_assoc.
  eexists; eexists. split; [reflexivity|]. split; [reflexivity|].
  destruct (contour_text_cases E image_np) as [Hr|Hr]; [now left|].
  right. now apply placeholders_valid.
Qed.

(** ** The region filter *)

Lemma Qltb_lt (a b : Q) : Qltb a b = true <-> (a < b)%Q.
Proof.
  unfold Qltb. rewrite negb_true_iff. split.
  - intros H. apply Qnot_le_lt. intros Hle. apply Qle_bool_iff in Hle.
    congruence.
  - intros H. destruct (Qle_bool b a) eqn:Hb; [|reflexivity].
    apply Qle_bool_iff in Hb. exfalso. exact (Qlt_not_le _ _ H Hb).
Qed.

Lemma ratio_above (w h : Z) :
  (0 < h)%Z ->
  ((3 # 10) < inject_Z w / inject_Z h)%Q <-> (3 * h < 10 * w)%Z.
Proof.
  intros Hh. destruct h as [|p|p]; try lia.
  unfold Qlt, Qdiv, Qmult, Qinv, inject_Z. cbn [Qnum Qden].
  rewrite ?Pos2Z.inj_mul. lia.
Qed.

Lemma ratio_below (w h : Z) :
  (0 < h)%Z ->
  (inject_Z w / inject_Z h < inject_Z 3)%Q <-> (w < 3 * h)%Z.
Proof.
  intros Hh. destruct h as [|p|p]; try lia.
  unfold Qlt, Qdiv, Qmult, Qinv, inject_Z. cbn [Qnum Qden].
  rewrite ?Pos2Z.inj_mul. lia.
Qed.

Lemma collect_regions_filtered (E : Env) (contours : list (contour E)) :
  forall digit_regions regions,
    collect_regions E contours digit_regions = Ret regions ->
    Forall digit_like digit_regions ->
    Forall digit_like regions
    /\ List.length regions <= List.length digit_regions + List.length contours.
Proof.
  induction contours as [|cnt rest IH]; intros acc regions Hrun Hacc.
  - simpl in Hrun. inversion Hrun; subst. split; [assumption | simpl; lia].
  - cbn [collect_regions] in Hrun. unfold rbind in Hrun.
    destruct (boundingRect E cnt) as [[[[x y] w] h]|e]; [|discriminate].
    destruct (contourArea E cnt) as [area|e]; [|discriminate].
    apply IH in Hrun.
    + destruct Hrun as [Hall Hlen]. split; [exact Hall|].
      cbn [List.length].
      repeat match type of Hlen with
             | context [if ?b then _ else _] => destruct b
             end;
        rewrite ?length_app in Hlen; simpl in Hlen; lia.
    + destruct ((8 <? w)%Z && (w <? 200)%Z && (8 <? h)%Z && (h <? 200)%Z
                && Qltb (inject_Z 15) area) eqn:Hsize; [|exact Hacc].
      destruct (Qltb (3 # 10) (inject_Z w / inject_Z h)
                && Qltb (inject_Z w / inject_Z h) (inject_Z 3)) eqn:Hratio;
        [|exact Hacc].
      apply Forall_app. split; [exact Hacc|]. constructor; [|constructor].
      repeat (apply andb_true_iff in Hsize; destruct Hsize as [Hsize ?]).
      apply andb_true_iff in Hratio. destruct Hratio as [Hlo Hhi].
      apply Z.ltb_lt in Hsize.
      repeat match goal with
             | H : (_ <? _)%Z = true |- _ => apply Z.ltb_lt in H
             | H : Qltb _ _ = true |- _ => apply Qltb_lt in H
             end.
      unfold digit_like. cbn [reg_w reg_h reg_area].
      assert (Hh : (0 < h)%Z) by lia.
      pose proof (proj1 (ratio_above w h Hh) Hlo).
      pose proof (proj1 (ratio_below w h Hh) Hhi).
      repeat split; assumption.
Qed.

(** Every region [digit_regions_at] accepts at a threshold is between 9 and
    199 pixels wide and high, has an area above 15 and a width between 0.3
    and 3 times its height; the regions come from the contours of the image
    binarised at that threshold, closed, then opened, and are no more than
    those contours. *)
Theorem digit_regions_at_filtered
    (E : Env) (enhanced : image E) (thresh_val : Z) (regions : list (region E)) :
  digit_regions_at E enhanced thresh_val = Ret regions ->
  Forall digit_like regions
  /\ exists thresh closed opened contours,
       threshold E enhanced thresh_val = Ret thresh
       /\ morphologyEx E thresh MORPH_CLOSE = Ret closed
       /\ morphologyEx E closed MORPH_OPEN = Ret opened
       /\ findContours E opened = Ret contours
       /\ List.length regions <= List.length contours.
Proof.
  unfold digit_regions_at, rbind. intros Hrun.
  destruct (threshold E enhanced thresh_val) as [thresh|e] eqn:Ht;
    [|discriminate].
  destruct (morphologyEx E thresh MORPH_CLOSE) as [closed|e] eqn:Hcl;
    [|discriminate].
  destruct (morphologyEx E closed MORPH_OPEN) as [opened|e] eqn:Hop;
    [|discriminate].
  destruct (findContours E opened) as [contours|e] eqn:Hc; [|discriminate].
  apply collect_regions_filtered in Hrun; [|constructor].
  destruct Hrun as [Hall Hlen]. split; [exact Hall|].
  exists thresh, closed, opened, contours. simpl in Hlen.
  repeat split; assumption.
Qed.

Lemma digit_regions_at_filtered_witness :
  exists regions,
    digit_regions_at Toy.env Toy.boxes_photo 150 = Ret regions
    /\ Forall digit_like regions.
Proof.
  eexists. split; [vm_compute; reflexivity|].
  eapply proj1. eapply (digit_regions_at_filtered Toy.env Toy.boxes_photo 150).
  vm_compute. reflexivity.
Defined.


(** ** The endpoint *)

Section EndpointFacts.

Variable S : Service.

(** What [validate_meter] returns and records, case by case. *)
Lemma validate_meter_run (image : upload S) (user_reading : pystr)
    (tr : list event) :
  validate_meter S image user_reading tr =
  match read_upload S image with
  | Raise _ => (Ret error_response, tr)
  | Ret image_stream =>
      (Ret [("status"%string, VStr (lit "VALID"));
            ("meter_reading"%string,
             VStr (fst (ladder (svc_env S) image_stream)));
            ("user_reading"%string, VStr user_reading);
            ("image_valid"%string, VBool (image_valid S image_stream))],
       tr ++ snd (ladder (svc_env S) image_stream))
  end.
Proof.
  unfold validate_meter, try_except at 1, bind at 1, lift at 1.
  destruct (read_upload S image) as [image_stream|e]; [|reflexivity].
  unfold bind, try_except, lift, ret, image_valid.
  rewrite extract_meter_reading_run.
  assert (Hstrip :
            (if negb (py_not (fst (ladder (svc_env S) image_stream)))
             then py_strip (fst (ladder (svc_env S) image_stream))
             else lit "")
            = fst (ladder (svc_env S) image_stream)).
  { destruct (ladder_valid (svc_env S) image_stream) as [Hr|Hr].
    - rewrite Hr. reflexivity.
    - rewrite (py_strip_no_space _ (valid_no_space _ Hr)).
      destruct (fst (ladder (svc_env S) image_stream)); reflexivity. }
  destruct (validate_image S image_stream) as [b|e]; now rewrite Hstrip.
Qed.

End EndpointFacts.

(** [validate_meter] never raises, and its status is ERROR exactly when the
    upload could not be read: then the response has no other key.  A failure
    of the OCR pipeline or of the classifier still gives status VALID, with
    the four keys of a full response. *)
Theorem validate_meter_status
    (S : Service) (image : upload S) (user_reading : pystr) (tr : list event) :
  exists response evs,
    validate_meter S image user_reading tr = (Ret response, tr ++ evs)
    /\ ((exists e, read_upload S image = Raise e)
        /\ response = error_response /\ evs = []
        \/ (exists image_stream, read_upload S image = Ret image_stream)
           /\ get "status" response = Some (VStr (lit "VALID"))
           /\ keys response
              = ["status"; "meter_reading"; "user_reading"; "image_valid"]%string).
Proof.
  rewrite validate_meter_run.
  destruct (read_upload S image) as [image_stream|e].
  - eexists; eexists. split; [reflexivity|]. right.
    split; [now exists image_stream|]. split; reflexivity.
  - exists error_response, []. split; [now rewrite app_nil_r|]. left.
    split; [now exists e|]. split; reflexivity.
Qed.

(** When the upload is read, the [meter_reading] of the response is exactly
    the string [extract_meter_reading] returned on it ([strip] removes
    nothing from it), hence empty or a valid reading, and the endpoint leaves
    the trace of that run. *)
Theorem validate_meter_reading
    (S : Service) (image : upload S) (user_reading : pystr) (tr : list event)
    (image_stream : buffer (svc_env S)) :
  read_upload S image = Ret image_stream ->
  exists response r tr',
    validate_meter S image user_reading tr = (Ret response, tr')
    /\ extract_meter_reading (svc_env S) image_stream tr = (Ret r, tr')
    /\ get "meter_reading" response = Some (VStr r)
    /\ (r = lit "" \/ is_valid_meter_reading r = true).
Proof.
  intros Hread. rewrite validate_meter_run, Hread, extract_meter_reading_run.
  eexists; eexists; eexists. split; [reflexivity|].
  split; [reflexivity|]. split; [reflexivity|]. apply ladder_valid.
Qed.

Lemma validate_meter_reading_witness :
  exists response r tr',
    validate_meter ToyService.service (Some (Some Toy.dim_photo)) (lit "482") []
    = (Ret response, tr')
    /\ extract_meter_reading Toy.env (Some Toy.dim_photo) [] = (Ret r, tr')
    /\ get "meter_reading" response = Some (VStr r)
    /\ (r = lit "" \/ is_valid_meter_reading r = true).
Proof.
  apply (validate_meter_reading ToyService.service
           (Some (Some Toy.dim_photo)) (lit "482") [] (Some Toy.dim_photo)).
  reflexivity.
Defined.

(** When the upload is read, the response echoes [user_reading] unchanged
    and never compares it with the reading found; [image_valid] is the
    verdict of the classifier, and [True] when the classifier raised,
    whatever the OCR pipeline found. *)
Theorem validate_meter_fail_open
    (S : Service) (image : upload S) (user_reading : pystr) (tr : list event)
    (image_stream : buffer (svc_env S)) :
  read_upload S image = Ret image_stream ->
  exists response tr',
    validate_meter S image user_reading tr = (Ret response, tr')
    /\ get "status" response = Some (VStr (lit "VALID"))
    /\ get "user_reading" response = Some (VStr user_reading)
    /\ (forall b, validate_image S image_stream = Ret b ->
                  get "image_valid" response = Some (VBool b))
    /\ (forall e, validate_image S image_stream = Raise e ->
                  get "image_valid" response = Some (VBool true)).
Proof.
  intros Hread. rewrite validate_meter_run, Hread.
  eexists; eexists. split; [reflexivity|].
  split; [reflexivity|]. split; [reflexivity|].
  split; intros x Hx; cbn [get String.eqb Ascii.eqb Bool.eqb];
    unfold image_valid; now rewrite Hx.
Qed.

Lemma validate_meter_fail_open_witness :
  exists response tr',
    validate_meter ToyService.service (Some None) (lit "0042") []
    = (Ret response, tr')
    /\ get "status" response = Some (VStr (lit "VALID"))
    /\ get "user_reading" response = Some (VStr (lit "0042"))
    /\ get "image_valid" response = Some (VBool true).
Proof.
  destruct (validate_meter_fail_open ToyService.service
              (Some None) (lit "0042") [] None eq_refl)
    as (response & tr' & Hrun & Hstatus & Huser & _ & Hopen).
  exists response, tr'. repeat split; try assumption.
  apply (Hopen (Exception "cannot identify image file")). reflexivity.
Defined.

Lemma normalised_accepted_decimal_witness :
  all_decimal (clean_ocr_text (lit "12O34I" ++ [LF]))
  /\ 4 <= len (clean_ocr_text (lit "12O34I" ++ [LF])) <= 7
  /\ two_distinct (clean_ocr_text (lit "12O34I" ++ [LF])).
Proof.
  apply (proj1 (normalised_accepted_decimal (lit "12O34I" ++ [LF]))).
  reflexivity.
Defined.
